(** * Governable: sequence validator, contract authorization and orchestrator

    A shallow embedding of the TypeScript sources of the Governable
    library: [kernel/Taxonomy.ts] (specification grammar and positional
    validator), [kernel/Context.ts], [kernel/BaseContract.ts],
    [contracts/Executable.ts] and the concrete contracts, and
    [Governable.ts] (the [DistributedOrganization] orchestrator).

    Thrown JavaScript exceptions are modelled by the [Throw] outcome of
    [Result]; [undefined] by [None]. *)

From Stdlib Require Import NArith ZArith Lia.
From stdpp Require Import gmap strings list sorting pretty.

Open Scope nat_scope.

(** ** Failures and results *)

(** The failure classes of [src/errors] plus the [TypeError] the
    JavaScript runtime raises when a property of [undefined] is read or
    a non-function is called.  [OutOfFuel] is an artefact of the
    embedding of loops; it is shown below never to be produced. *)
Inductive Failure : Type :=
  | FailureMissingArgument (field : string)
  | FailureOperationForbidden
  | FailureEmptyContract
  | FailureInvalidContract
  | FailureInvalidAgreement
  | TypeError
  | NetworkError
  | OutOfFuel.

Inductive Result (A : Type) : Type :=
  | Return (a : A)
  | Throw (f : Failure).
Arguments Return {A} a.
Arguments Throw {A} f.

Definition bind {A B : Type} (r : Result A) (k : A -> Result B) : Result B :=
  match r with
  | Return a => k a
  | Throw f => Throw f
  end.

Notation "'try!' x ':=' r 'in' k" := (bind r (fun x => k))
  (at level 10, x name, r at level 100, k at level 200).

(** ** Transactions *)

(** [TransactionType] is the numeric enumeration of the ledger SDK; the
    validator compares these numbers only. *)
Definition TransactionType : Type := N.

Definition RESERVED : TransactionType := 0%N.
Definition TRANSFER : TransactionType := 16724%N.
Definition MOSAIC_DEFINITION : TransactionType := 16717%N.
Definition MOSAIC_SUPPLY_CHANGE : TransactionType := 16973%N.
Definition MULTISIG_ACCOUNT_MODIFICATION : TransactionType := 16725%N.
Definition AGGREGATE_BONDED : TransactionType := 16961%N.
Definition SECRET_PROOF : TransactionType := 16978%N.
Definition ACCOUNT_MOSAIC_RESTRICTION : TransactionType := 16976%N.
Definition MOSAIC_GLOBAL_RESTRICTION : TransactionType := 16721%N.
Definition MOSAIC_ADDRESS_RESTRICTION : TransactionType := 16977%N.
Definition ACCOUNT_METADATA : TransactionType := 16708%N.
Definition MOSAIC_METADATA : TransactionType := 16964%N.

(** An embedded transaction, reduced to the fields the core reads: its
    [type], the [proof] of a secret proof and the [message.payload] of a
    transfer ([None] where the transaction has no such field). *)
Record Transaction : Type := mkTransaction {
  txType : TransactionType;
  proof : option string;
  message : option string
}.

(** A transaction of which only the type matters. *)
Definition typed (ty : TransactionType) : Transaction :=
  {| txType := ty; proof := None; message := None |}.

Record AggregateTransaction : Type := mkAggregate {
  aggregateType : TransactionType;
  innerTransactions : list Transaction;
  transactionInfo : bool  (* whether the network confirmed it *)
}.

(** The candidate contract wrapping a list of embedded transactions. *)
Definition contractOf (txs : list Transaction) : AggregateTransaction :=
  {| aggregateType := AGGREGATE_BONDED; innerTransactions := txs;
     transactionInfo := false |}.

(** ** kernel/TaxonomyMap.ts and kernel/SemanticsMap.ts *)

Record TaxonomyMapEntry : Type := mkEntry {
  type : TransactionType;
  required : bool
}.

Record SemanticRuleset : Type := mkRuleset {
  bundleWith : list nat;
  repeatable : bool;
  minOccurences : nat;
  maxOccurences : nat
}.

(** [TaxonomyMap] and [SemanticsMap] extend the JavaScript [Map]: finite
    maps from positions to entries, respectively rulesets. *)
Abbreviation TaxonomyMap := (gmap nat TaxonomyMapEntry).
Abbreviation SemanticsMap := (gmap nat SemanticRuleset).

(** [new Map(pairs)]: later pairs override earlier ones. *)
Definition newMap {V : Type} (pairs : list (nat * V)) : gmap nat V :=
  foldl (fun m kv => <[kv.1 := kv.2]> m) ∅ pairs.

(** ** kernel/Taxonomy.ts *)

Record Taxonomy : Type := mkTaxonomy {
  name : string;
  sequence : TaxonomyMap;
  semantics : SemanticsMap;
  registeredTypes : list TransactionType;
  repeatableTypes : list TransactionType
}.

(** [[...this.sequence.values()]]. A JavaScript [Map] iterates in
    insertion order, which the finite map does not record: the entries
    are taken in the order of their positions, the order in which the
    sequences of the repository are written down. The order matters to
    nothing but the place of types at or above 2^32 - 1 in the result
    of [getTransactionTypes]. *)
Definition sequenceValues (sequence : TaxonomyMap) : list TaxonomyMapEntry :=
  omap (fun k => sequence !! k) (merge_sort (≤) (map_to_list sequence).*1).

(** The [forEach] loop of [getTransactionTypes]: the object [uniqTypes]
    as the list of its keys in the order of their creation; a key is
    created when the object does not have it yet. *)
Definition uniqTypes (types : list TransactionType) : list TransactionType :=
  foldl (fun keys ty => if bool_decide (ty ∈ keys) then keys else keys ++ [ty])
    [] types.

(** [Object.keys] on an object whose keys are numbers: the keys that
    are array indices, the integers below 2^32 - 1, come first in
    ascending order; the others follow in the order of their creation.
    [parseInt] gives the numbers back. *)
Definition objectKeys (created : list TransactionType) : list TransactionType :=
  merge_sort N.le (filter (fun n => (n < 4294967295)%N) created)
  ++ filter (fun n => ¬ (n < 4294967295)%N) created.

Definition getTransactionTypes (sequence : TaxonomyMap) : list TransactionType :=
  objectKeys (uniqTypes (type <$> sequenceValues sequence)).

(** The constructor: [registeredTypes] is computed once, from the
    sequence given at construction; [repeatableTypes] starts empty. *)
Definition newTaxonomy (name : string) (sequence : TaxonomyMap)
    (semantics : SemanticsMap) : Taxonomy :=
  {| name := name; sequence := sequence; semantics := semantics;
     registeredTypes := getTransactionTypes sequence;
     repeatableTypes := [] |}.

(** [includes] on an array of numbers. *)
Definition includes (l : list TransactionType) (ty : TransactionType) : bool :=
  bool_decide (ty ∈ l).

(** [!!type]: [undefined] and [0] are falsy. *)
Definition truthy (ty : option TransactionType) : bool :=
  match ty with
  | None => false
  | Some n => negb (n =? 0)%N
  end.

Definition acceptsType (t : Taxonomy) (ty : option TransactionType) : bool :=
  truthy ty
  && (0 <? length (registeredTypes t))
  && match ty with
     | Some n => includes (registeredTypes t) n
     | None => false
     end.

Definition setAcceptsRepeat (t : Taxonomy) (ty : TransactionType) : Taxonomy :=
  if negb (includes (registeredTypes t) ty) then t
  else if negb (includes (repeatableTypes t) ty) then
    {| name := name t; sequence := sequence t; semantics := semantics t;
       registeredTypes := registeredTypes t;
       repeatableTypes := repeatableTypes t ++ [ty] |}
  else t.

Definition acceptsRepeat (t : Taxonomy) (ty : option TransactionType) : bool :=
  truthy ty
  && (0 <? length (repeatableTypes t))
  && match ty with
     | Some n => includes (repeatableTypes t) n
     | None => false
     end.

(** *** validateBundle *)

(** The inner [for] loop of [validateBundle], from index [i] on, where
    [es] are the entries [entries[i..]] and [pos = cursor + i].  A
    bundle slot may hold [undefined] (a position absent from the
    sequence): reading its [type] throws, but only once a transaction
    is present at [pos]. *)
Fixpoint bundleFor (es : list (option TaxonomyMapEntry))
    (transactions : list Transaction) (pos : nat) (isBundle : bool)
    : Result bool :=
  match es with
  | [] => Return isBundle
  | bundled :: rest =>
      match transactions !! pos with
      | None => Return false
      | Some innerTx =>
          match bundled with
          | None => Throw TypeError
          | Some b =>
              if negb (txType innerTx =? type b)%N then Return false
              else bundleFor rest transactions (S pos)
                     (match rest with [] => true | _ => isBundle end)
          end
      end
  end.

(** The [do ... while (isBundle === true)] loop. *)
Fixpoint bundleLoop (fuel : nat) (entries : list (option TaxonomyMapEntry))
    (transactions : list Transaction) (isBundle : bool) (cntFound : nat)
    : Result nat :=
  match fuel with
  | 0 => Throw OutOfFuel
  | S fuel' =>
      match bundleFor entries transactions (cntFound * length entries) isBundle with
      | Throw f => Throw f
      | Return true => bundleLoop fuel' entries transactions true (S cntFound)
      | Return false => Return cntFound
      end
  end.

Definition validateBundle (entries : list (option TaxonomyMapEntry))
    (transactions : list Transaction) : Result nat :=
  bundleLoop (S (length transactions)) entries transactions false 0.

(** *** validate *)

(** The loop variables of the positional walk. *)
Record Walk : Type := mkWalk { i : nat; skip : nat; bundled : nat }.

(** What one iteration of the walk does. *)
Inductive Step : Type :=
  | Continue (w : Walk)   (* next iteration, [i++] already applied *)
  | Stop (b : bool)       (* [return b] *)
  | Raise (f : Failure).

Definition cursorOf (w : Walk) : nat := i w - skip w + bundled w.

(** The bundle of a repeatable entry: the entry itself, then
    [sequence.get(i + b)] for [b = 1 .. bundleWith.length - 1]. *)
Definition bundleOf (t : Taxonomy) (entry : TaxonomyMapEntry)
    (rules : SemanticRuleset) (i : nat) : list (option TaxonomyMapEntry) :=
  Some entry ::
  ((fun b => sequence t !! (i + b)) <$> seq 1 (length (bundleWith rules) - 1)).

(** Branch 1 of the walk: optional entries can appear. *)
Definition optionalEntry (ctrTxes : list Transaction) (w : Walk)
    (entry : TaxonomyMapEntry) : Step :=
  let absent := match ctrTxes !! cursorOf w with
                | None => true
                | Some innerTx => negb (txType innerTx =? type entry)%N
                end in
  Continue {| i := S (i w);
              skip := if absent then S (skip w) else skip w;
              bundled := bundled w |}.

(** Branch 2: repeatable entries are validated in bundles. *)
Definition repeatableEntry (t : Taxonomy) (ctrTxes : list Transaction) (w : Walk)
    (entry : TaxonomyMapEntry) (rules : SemanticRuleset) : Step :=
  let trxes := drop (cursorOf w) ctrTxes in
  let bundle := bundleOf t entry rules (i w) in
  match validateBundle bundle trxes with
  | Throw f => Raise f
  | Return 0 => Stop false
  | Return numOccurences =>
      Continue {| i := S (i w + length bundle);
                  skip := skip w;
                  bundled := bundled w + numOccurences * length bundle |}
  end.

(** Branch 3: required entries must appear. *)
Definition requiredEntry (ctrTxes : list Transaction) (w : Walk)
    (entry : TaxonomyMapEntry) : Step :=
  match ctrTxes !! cursorOf w with
  | None => Stop false
  | Some tx =>
      if negb (type entry =? txType tx)%N then Stop false
      else Continue {| i := S (i w); skip := skip w; bundled := bundled w |}
  end.

(** The body of the second [for] loop of [validate], followed by the
    loop's own [i++].  Reading [required] of an entry the sequence does
    not have throws. *)
Definition walkBody (t : Taxonomy) (ctrTxes : list Transaction) (w : Walk) : Step :=
  match sequence t !! i w with
  | None => Raise TypeError
  | Some entry =>
      if negb (required entry) then optionalEntry ctrTxes w entry
      else
        match semantics t !! i w with
        | Some rules =>
            if repeatable rules then repeatableEntry t ctrTxes w entry rules
            else requiredEntry ctrTxes w entry
        | None => requiredEntry ctrTxes w entry
        end
  end.

(** The second [for] loop: it runs while [i < max]. *)
Fixpoint walkLoop (fuel : nat) (t : Taxonomy) (ctrTxes : list Transaction)
    (max : nat) (w : Walk) : Result bool :=
  if max <=? i w then Return true
  else
    match fuel with
    | 0 => Throw OutOfFuel
    | S fuel' =>
        match walkBody t ctrTxes w with
        | Continue w' => walkLoop fuel' t ctrTxes max w'
        | Stop b => Return b
        | Raise f => Throw f
        end
    end.

Definition walkStart : Walk := {| i := 0; skip := 0; bundled := 0 |}.

Definition validate (t : Taxonomy) (contract : AggregateTransaction) : Result bool :=
  if length (innerTransactions contract) =? 0 then Return false
  else if length (registeredTypes t) =? 0 then Return false
  else
    let max := size (sequence t) in
    let ctrTxes := innerTransactions contract in
    if negb (forallb (fun innerTx => acceptsType t (Some (txType innerTx))) ctrTxes)
    then Return false
    else walkLoop max t ctrTxes max walkStart.

(** The states the walk of [validate] goes through. *)
Inductive reaches (t : Taxonomy) (txs : list Transaction) : Walk -> Prop :=
  | reaches_start : reaches t txs walkStart
  | reaches_next w w' :
      reaches t txs w ->
      i w < size (sequence t) ->
      walkBody t txs w = Continue w' ->
      reaches t txs w'.

(** The two guards and the type pre-filter that precede the walk. *)
Definition preFiltered (t : Taxonomy) (c : AggregateTransaction) : Prop :=
  innerTransactions c <> [] /\ registeredTypes t <> [] /\
  forallb (fun innerTx => acceptsType t (Some (txType innerTx)))
    (innerTransactions c) = true.

(** *** A list matcher for grammars without repeatable rule *)

(** What the walk amounts to when no entry is repeatable: entries are
    matched from left to right against the candidate; a required entry
    consumes the next operation, which must have its type; an optional
    entry consumes the next operation if it has its type and is passed
    over otherwise. Operations left over at the end are not looked
    at. *)
Fixpoint plainWalk (entries : list TaxonomyMapEntry) (txs : list Transaction) : bool :=
  match entries with
  | [] => true
  | entry :: rest =>
      match txs with
      | [] => if required entry then false else plainWalk rest []
      | tx :: txs' =>
          if required entry then (type entry =? txType tx)%N && plainWalk rest txs'
          else if (txType tx =? type entry)%N then plainWalk rest txs'
          else plainWalk rest txs
      end
  end.

(** The character [c] does not occur in the string. *)
Fixpoint charFree (c : Ascii.ascii) (s : string) : Prop :=
  match s with
  | EmptyString => True
  | String a rest => a <> c /\ charFree c rest
  end.
Arguments charFree c%_char_scope s%_string_scope.

(** The block of [len] types that starts at [pos]. *)
Definition blockAt (len pos : nat) (txs : list Transaction) : list TransactionType :=
  take len (drop pos (txType <$> txs)).

(** ** Execution context and contracts *)

Module Contracts.

(** *** Accounts, options and the execution context *)

Record Address : Type := mkAddress { plain : string; networkType : N }.

#[export] Instance Address_eq_dec : EqDecision Address.
Proof. solve_decision. Defined.

(** [Address.equals] of the ledger SDK. *)
Definition equals (a b : Address) : bool := bool_decide (a = b).

Record PublicAccount : Type := mkAccount { publicKey : string; address : Address }.

(** The values a [ContractOption<any>] can carry, as far as the core
    distinguishes them. [VBlankAccount] is [new PublicAccount()], whose
    [address] is [undefined]; [VObject] stands for every other object
    (metadata buckets, pass phrases, ...), none of which has an
    [address]. *)
Inductive Value : Type :=
  | VNull
  | VUndefined
  | VAccount (a : PublicAccount)
  | VBlankAccount
  | VAccounts (l : list PublicAccount)
  | VString (s : string)
  | VObject (handle : nat).

Record ContractOption : Type := mkOption { name : string; value : Value }.

Record Reader : Type := mkReader { gatewayUrl : string; generationHash : string }.

(** The key provider is passed through untouched. *)
Record KeyProvider : Type := mkKeyProvider { keyChain : nat }.

Record TransactionParameters : Type := mkParameters {
  epochAjustment : N;
  deadline : N;
  maxFee : option N
}.

(** [new TransactionParameters()]; the default deadline is created from
    the epoch adjustment. *)
Definition defaultParameters : TransactionParameters :=
  {| epochAjustment := 1573430400%N; deadline := 1573430400%N; maxFee := None |}.

Record Context : Type := mkContext {
  revision : nat;
  actor : PublicAccount;
  reader : Reader;
  signer : KeyProvider;
  parameters : TransactionParameters;
  argv : option (list ContractOption)
}.

(** [Context.getInput]: the first option of that name, or the default. *)
Definition getInput (c : Context) (field : string) (defaultValue : Value) : Value :=
  match argv c with
  | None => defaultValue
  | Some [] => defaultValue
  | Some opts =>
      match List.find (fun opt => String.eqb (name opt) field) opts with
      | Some it => value it
      | None => defaultValue
      end
  end.

(** [Context.setInput] pushes a new option at the end. *)
Definition setInput (c : Context) (field : string) (v : Value) : Context :=
  {| revision := revision c; actor := actor c; reader := reader c;
     signer := signer c; parameters := parameters c;
     argv := Some (default [] (argv c) ++ [mkOption field v]) |}.

Record AllowanceResult : Type := mkAllowance {
  status : bool;
  resultMessage : option string
}.

(** [new AllowanceResult(status)] *)
Definition allowance (b : bool) : AllowanceResult :=
  {| status := b; resultMessage := None |}.

(** *** kernel/BaseContract.ts *)

(** [assertHasMandatoryArguments(argv, fields)]: the loop over
    [fields].  The [argv] parameter is received and not read. *)
Fixpoint assertHasMandatoryArguments (c : Context)
    (argv : option (list ContractOption)) (fields : list string) : Result bool :=
  match fields with
  | [] => Return true
  | f :: rest =>
      match getInput c f VNull with
      | VNull => Throw (FailureMissingArgument f)
      | _ => assertHasMandatoryArguments c argv rest
      end
  end.

(** *** The contracts *)

Inductive ContractKind : Type :=
  | CreateAgreement
  | CommitAgreement
  | CreateDAO
  | CreateVote
  | Vote.

Record AssetIdentifier : Type := mkIdentifier { id : string; target_ : PublicAccount }.

Record MosaicInfo : Type := mkMosaicInfo { mosaicId : string }.

Record MetadataBucket : Type := mkBucket {
  bucketName : string; code : string; website : string;
  contact : string; description : string; image : string
}.

(** An instance of a class extending [Executable]: the class it was
    built from and its fields. *)
Record Executable : Type := mkExecutable {
  kind : ContractKind;
  context : Context;
  identifier : AssetIdentifier;
  agreement : option AggregateTransaction;
  target : PublicAccount;
  operators : list Address;
  mosaicInfo : option MosaicInfo;
  metadata : option MetadataBucket
}.

(** [new K(context, identifier)] *)
Definition newExecutable (k : ContractKind) (c : Context) (i : AssetIdentifier)
    : Executable :=
  {| kind := k; context := c; identifier := i; agreement := None;
     target := target_ i; operators := []; mosaicInfo := None;
     metadata := None |}.

(** [newTarget.address.equals(other)] for an input value read with
    [getInput]: only an account has an address to compare. *)
Definition addressEquals (newTarget : Value) (other : Address) : Result bool :=
  match newTarget with
  | VAccount a => Return (equals (address a) other)
  | _ => Throw TypeError
  end.

(** [Executable.canExecute], the default policy: owner only. *)
Definition Executable_canExecute (fields : list string) (e : Executable)
    (actor : PublicAccount) (argv : option (list ContractOption))
    : Result AllowanceResult :=
  try! _ := assertHasMandatoryArguments (context e) argv fields in
  let isOperator := equals (address actor) (address (target e)) in
  Return (allowance isOperator).

Definition CreateAgreement_arguments : list string :=
  ["password"; "mnemonic"; "path"; "operators"]%string.

Definition CreateAgreement_canExecute (e : Executable) (actor : PublicAccount)
    (argv : option (list ContractOption)) : Result AllowanceResult :=
  try! _ := assertHasMandatoryArguments (context e) argv CreateAgreement_arguments in
  Return (allowance (bool_decide (agreement e = None))).

Definition CommitAgreement_arguments : list string := ["target"; "agreement"]%string.

Definition CommitAgreement_canExecute (e : Executable) (actor : PublicAccount)
    (argv : option (list ContractOption)) : Result AllowanceResult :=
  try! _ := assertHasMandatoryArguments (context e) argv CommitAgreement_arguments in
  let newTarget := getInput (context e) "target" VBlankAccount in
  match agreement e with
  | Some _ => Return (allowance false)
  | None =>
      try! same := addressEquals newTarget (address (target e)) in
      Return (allowance same)
  end.

Definition CreateDAO_arguments : list string := ["target"; "operators"; "metadata"]%string.

Definition CreateDAO_canExecute (e : Executable) (actor : PublicAccount)
    (argv : option (list ContractOption)) : Result AllowanceResult :=
  try! _ := assertHasMandatoryArguments (context e) argv CreateDAO_arguments in
  let newTarget := getInput (context e) "target" VBlankAccount in
  match agreement e with
  | None => Return (allowance false)
  | Some _ =>
      try! same := addressEquals newTarget (address (target e)) in
      Return (allowance same)
  end.

Definition CreateVote_arguments : list string := ["operator"]%string.

Definition CreateVote_canExecute (e : Executable) (actor : PublicAccount)
    (argv : option (list ContractOption)) : Result AllowanceResult :=
  try! _ := assertHasMandatoryArguments (context e) argv CreateVote_arguments in
  Return (allowance true).

(** The [name] and [descriptor] getters of the four contracts. *)
Definition CreateAgreement_name : string := "CreateAgreement".
Definition CommitAgreement_name : string := "CommitAgreement".
Definition CreateDAO_name : string := "CreateDAO".
Definition CreateVote_name : string := "CreateVote".

Definition CreateAgreement_descriptor (e : Executable) : string :=
  ("Governable(v" +:+ pretty (revision (context e)) +:+ ")"
   +:+ ":create-agreement:" +:+ id (identifier e))%string.

Definition CommitAgreement_descriptor (e : Executable) : string :=
  ("Governable(v" +:+ pretty (revision (context e)) +:+ ")"
   +:+ ":commit-agreement:" +:+ id (identifier e))%string.

Definition CreateDAO_descriptor (e : Executable) : string :=
  ("Governable(v" +:+ pretty (revision (context e)) +:+ ")"
   +:+ ":create-dao:" +:+ id (identifier e))%string.

Definition CreateVote_descriptor (e : Executable) : string :=
  ("Governable(v" +:+ pretty (revision (context e)) +:+ ")"
   +:+ ":create-vote:" +:+ id (identifier e))%string.

(** The [name] getter of a contract instance, for the classes whose
    source is at hand. *)
Definition contractName (e : Executable) : option string :=
  match kind e with
  | CreateAgreement => Some CreateAgreement_name
  | CommitAgreement => Some CommitAgreement_name
  | CreateDAO => Some CreateDAO_name
  | CreateVote => Some CreateVote_name
  | Vote => None
  end.

(** The [descriptor] getter of a contract instance, for the classes
    whose source is at hand. *)
Definition descriptor (e : Executable) : option string :=
  match kind e with
  | CreateAgreement => Some (CreateAgreement_descriptor e)
  | CommitAgreement => Some (CommitAgreement_descriptor e)
  | CreateDAO => Some (CreateDAO_descriptor e)
  | CreateVote => Some (CreateVote_descriptor e)
  | Vote => None
  end.

(** The [arguments] field each class initializes. *)
Inductive classArguments : ContractKind -> list string -> Prop :=
  | arguments_CreateAgreement : classArguments CreateAgreement CreateAgreement_arguments
  | arguments_CommitAgreement : classArguments CommitAgreement CommitAgreement_arguments
  | arguments_CreateDAO : classArguments CreateDAO CreateDAO_arguments
  | arguments_CreateVote : classArguments CreateVote CreateVote_arguments.

(** What the sources at hand do not contain: the [Vote] class, the
    ledger operations the [transactions] getters build through the
    SDK, and the SDK's [serialize], which encodes an aggregate as its
    payload (or throws). *)
Record External : Type := mkExternal {
  Vote_canExecute :
    Executable -> PublicAccount -> option (list ContractOption) -> Result AllowanceResult;
  sdkTransactions : Executable -> Result (list Transaction);
  sdkSerialize : AggregateTransaction -> Result string
}.

(** [new TransactionURI(contract.serialize(), TransactionMapping.createFromPayload)]:
    the URI holds the serialized payload of the contract, not the
    aggregate it was serialized from. *)
Record TransactionURI : Type := mkURI { data : string }.

Section Dispatch.
Context (ext : External).

(** Method dispatch on the class of the instance. *)
Definition canExecute (e : Executable) (actor : PublicAccount)
    (argv : option (list ContractOption)) : Result AllowanceResult :=
  match kind e with
  | CreateAgreement => CreateAgreement_canExecute e actor argv
  | CommitAgreement => CommitAgreement_canExecute e actor argv
  | CreateDAO => CreateDAO_canExecute e actor argv
  | CreateVote => CreateVote_canExecute e actor argv
  | Vote => Vote_canExecute ext e actor argv
  end.

(** The [transactions] getter; that of [CreateVote] builds nothing. *)
Definition transactions (e : Executable) : Result (list Transaction) :=
  match kind e with
  | CreateVote => Return []
  | _ => sdkTransactions ext e
  end.

(** [BaseContract.assertExecutionAllowance] *)
Definition assertExecutionAllowance (e : Executable) (actor : PublicAccount)
    (argv : option (list ContractOption)) : Result bool :=
  try! authResult := canExecute e actor argv in
  if negb (status authResult) then Throw FailureOperationForbidden
  else Return true.

(** [Executable.prepare]: the getter is read for the sanity check, then
    again for the aggregate. *)
Definition prepare (e : Executable) : Result AggregateTransaction :=
  try! txs := transactions e in
  if length txs =? 0 then Throw FailureEmptyContract
  else
    try! txs' := transactions e in
    Return {| aggregateType := AGGREGATE_BONDED; innerTransactions := txs';
              transactionInfo := false |}.

(** [Executable.execute] *)
Definition execute (e : Executable) (actor : PublicAccount)
    (argv : option (list ContractOption)) : Result TransactionURI :=
  try! _ := assertExecutionAllowance e actor argv in
  try! contract := prepare e in
  try! payload := sdkSerialize ext contract in
  Return {| data := payload |}.

End Dispatch.

End Contracts.

(** ** The organization orchestrator (Governable.ts) *)

Module Governable.
Import Contracts.

(** [Governable.Revision] *)
Definition Revision : nat := 1.

(** *** Named-contract lookup *)

(** The own properties of the [DigitalContracts] object literal. *)
Definition DigitalContracts : list (string * ContractKind) :=
  [("CreateAgreement", CreateAgreement);
   ("CommitAgreement", CommitAgreement);
   ("CreateDAO", CreateDAO);
   ("CreateVote", CreateVote);
   ("Vote", Vote)]%string.

(** [DigitalContracts] is an object literal, so the property read
    [DigitalContracts[command]] also finds what every object inherits
    from [Object.prototype].  Called with [(context, governAssetId)],
    an inherited member either throws a [TypeError] at once
    ([__proto__] is no function, [__defineGetter__] and
    [__defineSetter__] want a function as second argument) or returns
    something that is not a contract: [constructor] returns the
    context, [valueOf] the table itself, the others a boolean, a string
    or [undefined]. *)
Inductive Inherited : Type :=
  | ThrowsWhenCalled
  | ReturnsNoContract.

Definition ObjectPrototype : list (string * Inherited) :=
  [("constructor", ReturnsNoContract);
   ("hasOwnProperty", ReturnsNoContract);
   ("isPrototypeOf", ReturnsNoContract);
   ("propertyIsEnumerable", ReturnsNoContract);
   ("toLocaleString", ReturnsNoContract);
   ("toString", ReturnsNoContract);
   ("valueOf", ReturnsNoContract);
   ("__lookupGetter__", ReturnsNoContract);
   ("__lookupSetter__", ReturnsNoContract);
   ("__defineGetter__", ThrowsWhenCalled);
   ("__defineSetter__", ThrowsWhenCalled);
   ("__proto__", ThrowsWhenCalled)]%string.

Inductive Property : Type :=
  | ContractFn (k : ContractKind)
  | InheritedMember (m : Inherited).

Definition assoc {V : Type} (key : string) (l : list (string * V)) : option V :=
  snd <$> List.find (fun kv => String.eqb (fst kv) key) l.

(** The property read [DigitalContracts[command]]: own properties
    first, then the prototype; [None] is [undefined]. *)
Definition lookupContract (command : string) : option Property :=
  match assoc command DigitalContracts with
  | Some k => Some (ContractFn k)
  | None => InheritedMember <$> assoc command ObjectPrototype
  end.

(** What [getContract] hands back. *)
Inductive Resolved : Type :=
  | Instance (e : Executable)
  | NoContract.

(** [getContract(governAssetId, command, context)] *)
Definition getContract (governAssetId : AssetIdentifier) (command : string)
    (context : Context) : Result Resolved :=
  match lookupContract command with
  | None => Throw FailureInvalidContract
  | Some (ContractFn k) => Return (Instance (newExecutable k context governAssetId))
  | Some (InheritedMember ThrowsWhenCalled) => Throw TypeError
  | Some (InheritedMember ReturnsNoContract) => Return NoContract
  end.

(** *** Organization state *)

Record DistributedOrganization : Type := mkOrganization {
  name : string;
  reader : Reader;
  signer : KeyProvider;
  agreementHash : option string;
  identifier : AssetIdentifier;
  agreement : option AggregateTransaction;
  mosaicInfo : option MosaicInfo;
  operators : list Address;
  metadata : option MetadataBucket
}.

(** The [identifier] getter is a function of the name, the target
    account and the source, none of which changes after construction:
    it is kept as a field, and the target account is the one it
    records. *)
Definition target (org : DistributedOrganization) : PublicAccount :=
  target_ (identifier org).

Definition getContext (org : DistributedOrganization) (actor : PublicAccount)
    (parameters : TransactionParameters) (argv : option (list ContractOption))
    : Context :=
  mkContext Revision actor (reader org) (signer org) parameters argv.

(** The four assignments that copy the synchronized data into the
    contract instance. *)
Definition populate (org : DistributedOrganization) (cmdFn : Executable) : Executable :=
  {| kind := kind cmdFn; context := context cmdFn;
     Contracts.identifier := Contracts.identifier cmdFn;
     Contracts.agreement := agreement org;
     Contracts.target := Contracts.target cmdFn;
     Contracts.operators := operators org;
     Contracts.mosaicInfo := mosaicInfo org;
     Contracts.metadata := metadata org |}.

Section Orchestrator.
Context (ext : External).

(** [DistributedOrganization.canExecute].  On something that is not a
    contract the call of its missing [canExecute] method is a
    [TypeError]. *)
Definition canExecute (org : DistributedOrganization) (actor : PublicAccount)
    (governAssetId : AssetIdentifier) (contract : string)
    (argv : list ContractOption) : Result AllowanceResult :=
  let params := defaultParameters in
  let context := getContext org actor params (Some argv) in
  try! cmdFn := getContract governAssetId contract context in
  match cmdFn with
  | Instance e => Contracts.canExecute ext (populate org e) actor (Some argv)
  | NoContract => Throw TypeError
  end.

(** [DistributedOrganization.executeOffline] *)
Definition executeOffline (org : DistributedOrganization) (actor : PublicAccount)
    (governAssetId : AssetIdentifier) (contract : string)
    (parameters : TransactionParameters) (argv : list ContractOption)
    : Result TransactionURI :=
  let context := getContext org actor parameters (Some argv) in
  try! cmdFn := getContract governAssetId contract context in
  match cmdFn with
  | Instance e => Contracts.execute ext (populate org e) actor (Some argv)
  | NoContract => Throw TypeError
  end.

End Orchestrator.

(** *** services/AgreementService.ts *)

(** [message.payload] of a transaction; reading it where there is no
    message throws. *)
Definition payloadOf (tx : Transaction) : Result string :=
  match message tx with
  | Some p => Return p
  | None => Throw TypeError
  end.

Definition commitDescriptor (context : Context) (identifier : AssetIdentifier) : string :=
  ("Governable(v" +:+ pretty (revision context) +:+ ")"
   +:+ ":commit-agreement:" +:+ id identifier)%string.

(** [AgreementService.verifyAuthenticity] *)
Definition verifyAuthenticity (context : Context) (identifier : AssetIdentifier)
    (agreementTx : option AggregateTransaction) : Result bool :=
  match agreementTx with
  | None => Return false
  | Some tx =>
      if negb (aggregateType tx =? AGGREGATE_BONDED)%N then Return false
      else
        match innerTransactions tx with
        | [secretProof; targetAgree; execProof] =>
            if negb (transactionInfo tx) then Return false
            else if negb (bool_decide (proof secretProof = Some (id identifier)))
            then Return false
            else
              try! agreed := payloadOf targetAgree in
              if negb (String.eqb agreed (publicKey (target_ identifier)))
              then Return false
              else
                try! executed := payloadOf execProof in
                Return (String.eqb executed (commitDescriptor context identifier))
        | _ => Return false
        end
  end.

(** *** Network reads *)

(** What a repository call yields once awaited: the observable emits a
    value, fails, or completes without a value. *)
Inductive Observable (A : Type) : Type :=
  | Emits (a : A)
  | Errors
  | Completes.
Arguments Emits {A} a.
Arguments Errors {A}.
Arguments Completes {A}.

(** [.toPromise()] followed by [await]: a failed observable rejects, an
    empty one resolves to [undefined]. *)
Definition toPromise {A : Type} (o : Observable A) : Result (option A) :=
  match o with
  | Emits a => Return (Some a)
  | Errors => Throw NetworkError
  | Completes => Return None
  end.

(** [.pipe(catchError(e => of(undefined)))]: a failure is replaced by
    an observable that emits [undefined]. *)
Definition catchErrorUndefined {A : Type} (o : Observable A) : Observable (option A) :=
  match o with
  | Emits a => Emits (Some a)
  | Errors => Emits None
  | Completes => Completes
  end.

Record MultisigAccountInfo : Type := mkMultisigInfo {
  cosignatoryAddresses : list Address
}.

Record MultisigAccountGraphInfo : Type := mkGraph {
  multisigEntries : gmap Z (list MultisigAccountInfo)
}.

(** The ledger as one run of [synchronize] sees it.  A [Throw] is an
    exception raised by the call itself, before anything is awaited.
    [readMetadataFromNetwork] is the outcome of the metadata service as
    a whole. *)
Record Network : Type := mkNetwork {
  getTransaction : string -> Result (Observable AggregateTransaction);
  getMosaic : AssetIdentifier -> Result (Observable MosaicInfo);
  getMultisigAccountGraphInfo : Address -> Result (Observable MultisigAccountGraphInfo);
  readMetadataFromNetwork : Address -> Result MetadataBucket
}.

(** [TransactionService.readTransactionFromNetwork] *)
Definition readTransactionFromNetwork (net : Network) (hash : string)
    : Result (option AggregateTransaction) :=
  try! o := getTransaction net hash in toPromise o.

(** [array.reduce(f)] without an initial value throws on the empty
    array. *)
Definition reduce {A : Type} (f : A -> A -> A) (l : list A) : Result A :=
  match l with
  | [] => Throw TypeError
  | x :: rest => Return (foldl f x rest)
  end.

(** [MultisigService.getMultisigAccountInfoFromGraph]: levels from top
    to bottom, empty levels dropped, then a reduction that keeps the
    current level only. *)
Definition getMultisigAccountInfoFromGraph (graph : MultisigAccountGraphInfo)
    : Result (list MultisigAccountInfo) :=
  let keys := merge_sort (flip Z.le) (map_to_list (multisigEntries graph)).*1 in
  let infos :=
    List.filter (fun x => 0 <? length x)
      ((fun key => default [] (multisigEntries graph !! key)) <$> keys) in
  reduce (fun prev it => it) infos.

(** The body of the second [try] block of [synchronize]. *)
Definition readOperators (net : Network) (target : Address) : Result (list Address) :=
  try! o := getMultisigAccountGraphInfo net target in
  try! graph := toPromise o in
  match graph with
  | None => Throw TypeError
  | Some g =>
      try! infos := getMultisigAccountInfoFromGraph g in
      reduce (fun prev it => prev ++ it) (cosignatoryAddresses <$> infos)
  end.

(** The right-hand side of the assignment in the first [try] block. *)
Definition readMosaicInfo (net : Network) (identifier : AssetIdentifier)
    : Result (option MosaicInfo) :=
  try! o := getMosaic net identifier in
  try! info := toPromise (catchErrorUndefined o) in
  Return (mjoin info).

Definition withAgreement (org : DistributedOrganization)
    (a : option AggregateTransaction) : DistributedOrganization :=
  mkOrganization (name org) (reader org) (signer org) (agreementHash org)
    (identifier org) a (mosaicInfo org) (operators org) (metadata org).

Definition withMosaicInfo (org : DistributedOrganization)
    (m : option MosaicInfo) : DistributedOrganization :=
  mkOrganization (name org) (reader org) (signer org) (agreementHash org)
    (identifier org) (agreement org) m (operators org) (metadata org).

Definition withOperators (org : DistributedOrganization)
    (ops : list Address) : DistributedOrganization :=
  mkOrganization (name org) (reader org) (signer org) (agreementHash org)
    (identifier org) (agreement org) (mosaicInfo org) ops (metadata org).

Definition withMetadata (org : DistributedOrganization)
    (m : option MetadataBucket) : DistributedOrganization :=
  mkOrganization (name org) (reader org) (signer org) (agreementHash org)
    (identifier org) (agreement org) (mosaicInfo org) (operators org) m.

(** [try { field = read } catch (e) {}]: a failed read leaves the
    organization as it is. *)
Definition tryAssign {A : Type} (org : DistributedOrganization) (read : Result A)
    (assign : DistributedOrganization -> A -> DistributedOrganization)
    : DistributedOrganization :=
  match read with
  | Return a => assign org a
  | Throw _ => org
  end.

(** The three best-effort reads, in order. *)
Definition refresh (net : Network) (org : DistributedOrganization)
    : DistributedOrganization :=
  let org1 := tryAssign org (readMosaicInfo net (identifier org)) withMosaicInfo in
  let org2 := tryAssign org1 (readOperators net (address (target org1))) withOperators in
  tryAssign org2
    (try! m := readMetadataFromNetwork net (address (target org2)) in Return (Some m))
    withMetadata.

(** [DistributedOrganization.synchronize]: the organization afterwards,
    and what the promise settles to. *)
Definition synchronize (net : Network) (org : DistributedOrganization)
    : DistributedOrganization * Result bool :=
  let context := getContext org (target org) defaultParameters None in
  match agreementHash org with
  | Some hash =>
      if String.length hash =? 0 then (org, Return true)
      else
        match readTransactionFromNetwork net hash with
        | Throw f => (org, Throw f)
        | Return tx =>
            let org0 := withAgreement org tx in
            match verifyAuthenticity context (identifier org0) (agreement org0) with
            | Throw f => (org0, Throw f)
            | Return false => (org0, Throw FailureInvalidAgreement)
            | Return true => (refresh net org0, Return true)
            end
        end
  | None => (org, Return true)
  end.

Section Execute.
Context (ext : External).

(** [DistributedOrganization.execute]: [await this.synchronize()], then
    a body of its own, written out as in the source; it does not call
    [executeOffline]. *)
Definition execute (net : Network) (org : DistributedOrganization)
    (actor : PublicAccount) (governAssetId : AssetIdentifier) (contract : string)
    (parameters : TransactionParameters) (argv : list ContractOption)
    : DistributedOrganization * Result TransactionURI :=
  let '(org', synced) := synchronize net org in
  match synced with
  | Throw f => (org', Throw f)
  | Return _ =>
      let context := getContext org' actor parameters (Some argv) in
      (org',
       try! cmdFn := getContract governAssetId contract context in
       match cmdFn with
       | Instance e => Contracts.execute ext (populate org' e) actor (Some argv)
       | NoContract => Throw TypeError
       end)
  end.

End Execute.

End Governable.

(** * Sample data *)

(** A grammar with a repeatable required entry followed by one more
    required entry, in the shape of the rule [CreateDAO] declares. *)
Definition bundleGrammar : Taxonomy :=
  newTaxonomy "bundle"
    (newMap [(0, mkEntry MOSAIC_ADDRESS_RESTRICTION true);
             (1, mkEntry TRANSFER true)])
    (newMap [(0, mkRuleset [1] true 1 0)]).

Definition bundleEntry : TaxonomyMapEntry := mkEntry MOSAIC_ADDRESS_RESTRICTION true.
Definition bundleRules : SemanticRuleset := mkRuleset [1] true 1 0.

(** Two grammars of the class above, over the entries and the rule
    that the [specification] getters of [CommitAgreement] and
    [CreateDAO] list. The getters themselves hand their maps to the
    [Taxonomy] class of the package [@ubcdigital/symbol-taxonomy],
    which is not among the sources: these values say nothing of that
    class, they are sample grammars for [kernel/Taxonomy.ts]. *)
Definition commitGrammar : Taxonomy :=
  newTaxonomy "Governable.CommitAgreement"
    (newMap [(0, mkEntry SECRET_PROOF true);
             (1, mkEntry TRANSFER true);
             (2, mkEntry TRANSFER true)])
    ∅.

Definition organizationGrammar : Taxonomy :=
  newTaxonomy "Governable.CreateDAO"
    (newMap [(0, mkEntry MULTISIG_ACCOUNT_MODIFICATION true);
             (1, mkEntry MOSAIC_DEFINITION true);
             (2, mkEntry MOSAIC_SUPPLY_CHANGE true);
             (3, mkEntry ACCOUNT_MOSAIC_RESTRICTION true);
             (4, mkEntry MOSAIC_GLOBAL_RESTRICTION true);
             (5, mkEntry MOSAIC_ADDRESS_RESTRICTION true);
             (6, mkEntry MOSAIC_METADATA true);
             (7, mkEntry ACCOUNT_METADATA true);
             (8, mkEntry ACCOUNT_METADATA false);
             (9, mkEntry ACCOUNT_METADATA false);
             (10, mkEntry ACCOUNT_METADATA false);
             (11, mkEntry ACCOUNT_METADATA false);
             (12, mkEntry ACCOUNT_METADATA false);
             (13, mkEntry ACCOUNT_METADATA false);
             (14, mkEntry MOSAIC_ADDRESS_RESTRICTION true);
             (15, mkEntry TRANSFER true);
             (16, mkEntry TRANSFER true)])
    (newMap [(14, mkRuleset [15] true 1 0)]).

(** A grammar with one optional entry and nothing else. *)
Definition optionalGrammar (T : TransactionType) (position : nat) : Taxonomy :=
  newTaxonomy "optional" {[position := mkEntry T false]} ∅.

Section ContractSamples.
Import Contracts.

(** Every mandatory field has an input that is not [null]. *)
Definition hasMandatoryArguments (c : Context) (fields : list string) : Prop :=
  Forall (fun f => getInput c f VNull <> VNull) fields.

Definition TEST_NET : N := 152%N.

Definition sampleTarget : PublicAccount :=
  mkAccount "TARGET-PUBLIC-KEY"
    (mkAddress "TD4YEJJUQ7HBDWF5LRLUUBE6CI7OS7OEN3USJ3I" TEST_NET).

Definition sampleAgreementAccount : PublicAccount :=
  mkAccount "AGREEMENT-PUBLIC-KEY"
    (mkAddress "TBJTHKVZEC563PFLZPNYG2LYY6LU4X2MLN2HJKA" TEST_NET).

Definition sampleOperator : PublicAccount :=
  mkAccount "OPERATOR1-PUBLIC-KEY"
    (mkAddress "TOPERATOR1AAAAAAAAAAAAAAAAAAAAAAAAAAAAA" TEST_NET).

Definition sampleIdentifier : AssetIdentifier := mkIdentifier "9e03faed" sampleTarget.

Definition sampleReader : Reader :=
  mkReader "http://api-01.us-west-1.symboldev.network:3000"
    "ACECD90E7B248E012803228ADB4424F0D966D24149B72E58987D2BF2F2AF03C4".

(** An organization without agreement hash, not synchronized. *)
Definition sampleOrganization : Governable.DistributedOrganization :=
  Governable.mkOrganization "SWP:XYM" sampleReader (mkKeyProvider 0) None
    sampleIdentifier None None [] None.

(** The inputs of the [CommitAgreement] unit test. *)
Definition commitArgv : list ContractOption :=
  [mkOption "target" (VAccount sampleTarget);
   mkOption "agreement" (VAccount sampleAgreementAccount)].

Definition voteArgv : list ContractOption :=
  [mkOption "operator" (VAccount sampleOperator)].

Definition daoArgv : list ContractOption :=
  [mkOption "target" (VAccount sampleTarget);
   mkOption "operators" (VAccounts [sampleOperator]);
   mkOption "metadata" (VObject 0)].

(** The instance the organization builds for a contract of kind [k]:
    constructed around the context, then given the organization's
    data. *)
Definition instanceOf (org : Governable.DistributedOrganization)
    (k : ContractKind) (argv : list ContractOption) : Executable :=
  Governable.populate org
    (newExecutable k
       (Governable.getContext org sampleOperator defaultParameters (Some argv))
       sampleIdentifier).

(** A stand-in for the parts outside the sources: [Vote] refuses, the
    SDK builds the three operations of [CommitAgreement], and the
    payload of an aggregate lists the types of its operations. *)
Definition sampleExternal : External :=
  {| Vote_canExecute := fun _ _ _ => Return (allowance false);
     sdkTransactions := fun _ =>
       Return [typed SECRET_PROOF; typed TRANSFER; typed TRANSFER];
     sdkSerialize := fun contract =>
       Return (String.concat ","
                 ((fun tx => pretty (txType tx)) <$> innerTransactions contract)) |}.

(** An authentic agreement for [sampleIdentifier]. *)
Definition sampleAgreement : AggregateTransaction :=
  {| aggregateType := AGGREGATE_BONDED;
     innerTransactions :=
       [ {| txType := SECRET_PROOF; proof := Some "9e03faed"; message := None |};
         {| txType := TRANSFER; proof := None; message := Some "TARGET-PUBLIC-KEY" |};
         {| txType := TRANSFER; proof := None;
            message := Some "Governable(v1):commit-agreement:9e03faed" |} ];
     transactionInfo := true |}.

(** An organization that was synchronized before. *)
Definition syncedOrganization : Governable.DistributedOrganization :=
  Governable.mkOrganization "SWP:XYM" sampleReader (mkKeyProvider 0)
    (Some "5F7E0D6C1A9B")
    sampleIdentifier (Some sampleAgreement) (Some (mkMosaicInfo "9E03FAED"))
    [address sampleOperator]
    (Some (mkBucket "SWAPS" "87" "https://swaps.cloud" "mailto:info@swaps.cloud" "" "")).

(** A ledger that serves the agreement and fails the three other
    reads. *)
Definition failingNetwork : Governable.Network :=
  {| Governable.getTransaction := fun _ => Return (Governable.Emits sampleAgreement);
     Governable.getMosaic := fun _ => Return Governable.Errors;
     Governable.getMultisigAccountGraphInfo := fun _ => Return Governable.Errors;
     Governable.readMetadataFromNetwork := fun _ => Throw NetworkError |}.

(** An organization that knows the hash of its agreement and was not
    synchronized yet. *)
Definition hashedOrganization : Governable.DistributedOrganization :=
  Governable.mkOrganization "SWP:XYM" sampleReader (mkKeyProvider 0)
    (Some "5F7E0D6C1A9B") sampleIdentifier None None [] None.

(** An aggregate in the shape of an agreement whose execution proof is
    the one of another contract. *)
Definition forgedAgreement : AggregateTransaction :=
  {| aggregateType := AGGREGATE_BONDED;
     innerTransactions :=
       [ {| txType := SECRET_PROOF; proof := Some "9e03faed"; message := None |};
         {| txType := TRANSFER; proof := None; message := Some "TARGET-PUBLIC-KEY" |};
         {| txType := TRANSFER; proof := None;
            message := Some "Governable(v1):create-agreement:9e03faed" |} ];
     transactionInfo := true |}.

(** A ledger that serves the forged aggregate, and one that serves the
    authentic agreement together with the mosaic, a multi-signature
    graph of two levels and the metadata. *)
Definition forgingNetwork : Governable.Network :=
  {| Governable.getTransaction := fun _ => Return (Governable.Emits forgedAgreement);
     Governable.getMosaic := fun _ => Return Governable.Errors;
     Governable.getMultisigAccountGraphInfo := fun _ => Return Governable.Errors;
     Governable.readMetadataFromNetwork := fun _ => Throw NetworkError |}.

Definition sampleGraph : Governable.MultisigAccountGraphInfo :=
  Governable.mkGraph
    (<[0%Z := [Governable.mkMultisigInfo [address sampleOperator;
                                           address sampleAgreementAccount]]]>
       (<[1%Z := [Governable.mkMultisigInfo [address sampleTarget]]]>
          (<[(-1)%Z := []]> ∅))).

Definition servingNetwork : Governable.Network :=
  {| Governable.getTransaction := fun _ => Return (Governable.Emits sampleAgreement);
     Governable.getMosaic := fun _ => Return (Governable.Emits (mkMosaicInfo "9E03FAED"));
     Governable.getMultisigAccountGraphInfo := fun _ => Return (Governable.Emits sampleGraph);
     Governable.readMetadataFromNetwork := fun _ =>
       Return (mkBucket "SWAPS" "87" "" "" "" "") |}.

End ContractSamples.

(** * Properties *)

(** ** The loops of the validator terminate *)

Lemma bundleFor_throws es txs pos isBundle f :
  bundleFor es txs pos isBundle = Throw f -> f = TypeError.
Proof.
  revert pos isBundle.
  induction es as [|b rest IH]; intros pos isBundle; simpl; [discriminate|].
  destruct (txs !! pos) as [tx|]; [|discriminate].
  destruct b as [b|]; [|congruence].
  destruct (negb _); [discriminate|]. apply IH.
Qed.

(** A full repetition was matched only if the transactions reach that
    far. *)
Lemma bundleFor_true es txs pos isBundle :
  bundleFor es txs pos isBundle = Return true ->
  es <> [] -> pos + length es <= length txs.
Proof.
  revert pos isBundle.
  induction es as [|b rest IH]; intros pos isBundle; simpl; [done|].
  intros H _.
  destruct (txs !! pos) as [tx|] eqn:Htx; [|discriminate].
  apply lookup_lt_Some in Htx.
  destruct b as [b|]; [|discriminate].
  destruct (negb _); [discriminate|].
  destruct rest as [|b' rest'].
  - simpl. lia.
  - apply IH in H; [|done]. simpl in *. lia.
Qed.

Lemma bundleLoop_throws es txs fuel isBundle cnt f :
  es <> [] ->
  cnt * length es <= length txs ->
  length txs < fuel + cnt ->
  bundleLoop fuel es txs isBundle cnt = Throw f -> f = TypeError.
Proof.
  intros Hes. revert isBundle cnt.
  induction fuel as [|fuel IH]; intros isBundle cnt Hcnt Hfuel; simpl.
  - exfalso. destruct es as [|b rest]; [done|]. simpl in Hcnt. nia.
  - destruct (bundleFor es txs (cnt * length es) isBundle) as [[|]|f'] eqn:Hfor.
    + apply bundleFor_true in Hfor; [|done].
      apply IH; simpl; lia.
    + discriminate.
    + intros [= <-]. by apply bundleFor_throws in Hfor.
Qed.

Lemma validateBundle_throws es txs f :
  validateBundle es txs = Throw f -> f = TypeError.
Proof.
  unfold validateBundle. destruct es as [|b rest]; [discriminate|].
  apply bundleLoop_throws; [done|simpl; lia|lia].
Qed.

Lemma walkBody_raises t txs w f :
  walkBody t txs w = Raise f -> f = TypeError.
Proof.
  unfold walkBody, optionalEntry, repeatableEntry, requiredEntry.
  destruct (sequence t !! i w) as [entry|]; [|congruence].
  destruct (negb (required entry)); [discriminate|].
  destruct (semantics t !! i w) as [[bw [] mn mx]|]; simpl.
  - destruct (validateBundle _ _) as [[|n]|f'] eqn:Hb; try discriminate.
    intros [= <-]. by apply validateBundle_throws in Hb.
  - destruct (txs !! cursorOf w); [|discriminate].
    destruct (negb _); discriminate.
  - destruct (txs !! cursorOf w); [|discriminate].
    destruct (negb _); discriminate.
Qed.

(** Every iteration moves the grammar position forward, and never
    skips more entries than it has passed. *)
Lemma walkBody_advances t txs w w' :
  walkBody t txs w = Continue w' ->
  i w < i w' /\ (skip w <= i w -> skip w' <= i w').
Proof.
  unfold walkBody, optionalEntry, repeatableEntry, requiredEntry.
  destruct (sequence t !! i w) as [entry|]; [|discriminate].
  destruct (negb (required entry)).
  { destruct (txs !! cursorOf w) as [tx|]; [destruct (negb (txType tx =? _)%N)|];
      intros [= <-]; simpl; lia. }
  destruct (semantics t !! i w) as [[bw [] mn mx]|]; simpl.
  - destruct (validateBundle _ _) as [[|n]|f']; try discriminate.
    intros [= <-]. simpl. lia.
  - destruct (txs !! cursorOf w); [|discriminate].
    destruct (negb _); [discriminate|]. intros [= <-]. simpl. lia.
  - destruct (txs !! cursorOf w); [|discriminate].
    destruct (negb _); [discriminate|]. intros [= <-]. simpl. lia.
Qed.

Lemma walkLoop_throws t txs max fuel w f :
  max <= fuel + i w ->
  walkLoop fuel t txs max w = Throw f -> f = TypeError.
Proof.
  revert w. induction fuel as [|fuel IH]; intros w Hfuel; simpl.
  - destruct (max <=? i w) eqn:Hle; [discriminate|].
    apply Nat.leb_gt in Hle. lia.
  - destruct (max <=? i w); [discriminate|].
    destruct (walkBody t txs w) as [w'|b|f'] eqn:Hbody.
    + apply walkBody_advances in Hbody. apply IH. lia.
    + discriminate.
    + intros [= <-]. by apply walkBody_raises in Hbody.
Qed.

(** [validate] always produces an outcome of the program: a boolean, or
    the [TypeError] of reading an entry the sequence does not have. *)
Lemma validate_outcome t c :
  (exists b, validate t c = Return b) \/ validate t c = Throw TypeError.
Proof.
  destruct (validate t c) as [b|f] eqn:Hv; [eauto|right].
  unfold validate in Hv.
  destruct (length (innerTransactions c) =? 0); [discriminate|].
  destruct (length (registeredTypes t) =? 0); [discriminate|].
  destruct (negb _); [discriminate|].
  apply walkLoop_throws in Hv; [by subst|simpl; lia].
Qed.

(** With enough fuel the amount of fuel does not matter. *)
Lemma walkLoop_fuel t txs max f1 f2 w :
  max <= f1 + i w -> max <= f2 + i w ->
  walkLoop f1 t txs max w = walkLoop f2 t txs max w.
Proof.
  revert f2 w. induction f1 as [|f1 IH]; intros f2 w H1 H2.
  - destruct f2; simpl; [done|].
    destruct (max <=? i w) eqn:Hle; [done|]. apply Nat.leb_gt in Hle. lia.
  - destruct f2 as [|f2]; simpl.
    + destruct (max <=? i w) eqn:Hle; [done|]. apply Nat.leb_gt in Hle. lia.
    + destruct (max <=? i w); [done|].
      destruct (walkBody t txs w) as [w'|b|f'] eqn:Hbody; try done.
      apply walkBody_advances in Hbody. apply IH; lia.
Qed.

Lemma reaches_skip t txs w : reaches t txs w -> skip w <= i w.
Proof.
  induction 1 as [|w w' _ IH _ Hbody]; [simpl; lia|].
  apply walkBody_advances in Hbody. tauto.
Qed.

Lemma reaches_walkLoop t txs w :
  reaches t txs w ->
  walkLoop (size (sequence t)) t txs (size (sequence t)) walkStart
  = walkLoop (size (sequence t) - i w) t txs (size (sequence t)) w.
Proof.
  induction 1 as [|w w' _ IH Hlt Hbody].
  - simpl. by rewrite Nat.sub_0_r.
  - rewrite IH.
    destruct (size (sequence t) - i w) as [|n] eqn:Hn; [lia|].
    simpl. apply Nat.leb_gt in Hlt. rewrite Hlt, Hbody.
    apply Nat.leb_gt in Hlt.
    apply walkBody_advances in Hbody. apply walkLoop_fuel; lia.
Qed.

Lemma validate_preFiltered t c :
  preFiltered t c ->
  validate t c
  = walkLoop (size (sequence t)) t (innerTransactions c) (size (sequence t)) walkStart.
Proof.
  intros (Htxs & Hreg & Hall). unfold validate.
  assert ((length (innerTransactions c) =? 0) = false) as ->
    by (destruct (innerTransactions c); done).
  assert ((length (registeredTypes t) =? 0) = false) as ->
    by (destruct (registeredTypes t); done).
  by rewrite Hall.
Qed.

(** What the walk decides at a state it reaches decides [validate]. *)
Lemma validate_stops_at t c w b :
  preFiltered t c ->
  reaches t (innerTransactions c) w ->
  i w < size (sequence t) ->
  walkBody t (innerTransactions c) w = Stop b ->
  validate t c = Return b.
Proof.
  intros Hadm Hreach Hlt Hbody.
  rewrite validate_preFiltered, (reaches_walkLoop _ _ _ Hreach) by done.
  destruct (size (sequence t) - i w) as [|n] eqn:Hn; [lia|].
  simpl. apply Nat.leb_gt in Hlt. by rewrite Hlt, Hbody.
Qed.

(** ** Registered types *)

Lemma getTransactionTypes_empty : getTransactionTypes ∅ = [].
Proof. reflexivity. Qed.

Lemma getTransactionTypes_singleton (k : nat) (e : TaxonomyMapEntry) :
  getTransactionTypes {[k := e]} = [type e].
Proof.
  unfold getTransactionTypes, sequenceValues. rewrite map_to_list_singleton.
  cbn. rewrite lookup_singleton_eq. cbn.
  unfold objectKeys.
  rewrite bool_decide_eq_false_2 by (intros H; by apply elem_of_nil in H).
  rewrite !filter_cons, !filter_nil. by repeat case_decide.
Qed.

(** [validate] reads the sequence, the semantics and the registered
    types of a taxonomy, and nothing else. *)
Lemma walkLoop_frame t t' txs max fuel w :
  sequence t = sequence t' -> semantics t = semantics t' ->
  walkLoop fuel t txs max w = walkLoop fuel t' txs max w.
Proof.
  intros Hseq Hsem. revert w.
  induction fuel as [|fuel IH]; intros w; simpl; [done|].
  destruct (max <=? i w); [done|].
  assert (walkBody t txs w = walkBody t' txs w) as ->.
  { unfold walkBody, repeatableEntry, bundleOf. by rewrite Hseq, Hsem. }
  destruct (walkBody t' txs w); auto.
Qed.

Lemma validate_frame t t' c :
  sequence t = sequence t' -> semantics t = semantics t' ->
  registeredTypes t = registeredTypes t' ->
  validate t c = validate t' c.
Proof.
  intros Hseq Hsem Hreg. unfold validate, acceptsType.
  rewrite Hreg, Hseq. by rewrite (walkLoop_frame t t').
Qed.

Lemma setAcceptsRepeat_fields t ty :
  name (setAcceptsRepeat t ty) = name t /\
  sequence (setAcceptsRepeat t ty) = sequence t /\
  semantics (setAcceptsRepeat t ty) = semantics t /\
  registeredTypes (setAcceptsRepeat t ty) = registeredTypes t.
Proof.
  unfold setAcceptsRepeat.
  destruct (negb (includes (registeredTypes t) ty)); [done|].
  destruct (negb (includes (repeatableTypes t) ty)); done.
Qed.

(** ** Claims on the sequence validator *)

(** C5. [validate] returns false whenever the candidate has no inner
    transaction, and whenever the taxonomy has no registered type, which
    is the case of every taxonomy constructed from an empty sequence. *)
Theorem validate_rejects_empty (t : Taxonomy) (c : AggregateTransaction) :
  (innerTransactions c = [] -> validate t c = Return false) /\
  (registeredTypes t = [] -> validate t c = Return false) /\
  (forall nm sem, validate (newTaxonomy nm ∅ sem) c = Return false).
Proof.
  split; [|split].
  - intros H. unfold validate. by rewrite H.
  - intros H. unfold validate. rewrite H. simpl.
    by destruct (length (innerTransactions c) =? 0).
  - intros nm sem. unfold validate. simpl.
    by destruct (length (innerTransactions c) =? 0).
Qed.

Lemma validate_rejects_empty_witness :
  validate bundleGrammar (contractOf []) = Return false /\
  validate (newTaxonomy "unconfigured" ∅ ∅) (contractOf [typed TRANSFER]) = Return false.
Proof.
  split.
  - apply (proj1 (validate_rejects_empty bundleGrammar (contractOf []))).
    reflexivity.
  - apply (proj1 (proj2 (validate_rejects_empty (newTaxonomy "unconfigured" ∅ ∅)
                           (contractOf [typed TRANSFER])))).
    reflexivity.
Defined.

(** C10. Any sequence of [setAcceptsRepeat] calls leaves the outcome of
    [validate] unchanged; the calls change the list of repeatable types
    only, and a call with a type that is not registered changes
    nothing. *)
Theorem setAcceptsRepeat_preserves_validate (t : Taxonomy)
    (tys : list TransactionType) (c : AggregateTransaction) :
  validate (foldl setAcceptsRepeat t tys) c = validate t c /\
  name (foldl setAcceptsRepeat t tys) = name t /\
  sequence (foldl setAcceptsRepeat t tys) = sequence t /\
  semantics (foldl setAcceptsRepeat t tys) = semantics t /\
  registeredTypes (foldl setAcceptsRepeat t tys) = registeredTypes t /\
  (forall ty, ty ∉ registeredTypes t -> setAcceptsRepeat t ty = t).
Proof.
  assert (Hfields : name (foldl setAcceptsRepeat t tys) = name t /\
    sequence (foldl setAcceptsRepeat t tys) = sequence t /\
    semantics (foldl setAcceptsRepeat t tys) = semantics t /\
    registeredTypes (foldl setAcceptsRepeat t tys) = registeredTypes t).
  { revert t. induction tys as [|ty tys IH]; intros t; simpl; [done|].
    destruct (IH (setAcceptsRepeat t ty)) as (-> & -> & -> & ->).
    apply setAcceptsRepeat_fields. }
  destruct Hfields as (Hn & Hseq & Hsem & Hreg).
  repeat split; try done.
  - by apply validate_frame.
  - intros ty Hty. unfold setAcceptsRepeat, includes.
    by rewrite bool_decide_eq_false_2.
Qed.

Lemma setAcceptsRepeat_preserves_validate_witness :
  setAcceptsRepeat bundleGrammar SECRET_PROOF = bundleGrammar /\
  validate (foldl setAcceptsRepeat bundleGrammar [TRANSFER; SECRET_PROOF])
    (contractOf [typed MOSAIC_ADDRESS_RESTRICTION; typed TRANSFER])
  = validate bundleGrammar
      (contractOf [typed MOSAIC_ADDRESS_RESTRICTION; typed TRANSFER]).
Proof.
  destruct (setAcceptsRepeat_preserves_validate bundleGrammar [TRANSFER; SECRET_PROOF]
              (contractOf [typed MOSAIC_ADDRESS_RESTRICTION; typed TRANSFER]))
    as (Hvalidate & _ & _ & _ & _ & Hunregistered).
  split; [|exact Hvalidate].
  apply Hunregistered. apply (bool_decide_unpack _). vm_compute. exact I.
Defined.

(** *** Optional entries *)

(** C4, as the claim states it, fails: a candidate without operations
    is rejected by the first guard of [validate], also by a grammar
    whose only entry is optional. *)
Lemma optional_entry_empty_candidate_rejected :
  validate (optionalGrammar TRANSFER 0) (contractOf []) = Return false /\
  validate (optionalGrammar TRANSFER 0) (contractOf []) <> Return true.
Proof. split; [reflexivity|discriminate]. Qed.

(** C4, amended. For a taxonomy constructed from the single entry
    [0 -> {type T, required false}], with [T] other than the reserved
    type 0, [validate] returns false for the candidate without
    operations and true for the candidate holding exactly one operation
    of type [T]. *)
Theorem single_optional_entry (nm : string) (T : TransactionType)
    (sem : SemanticsMap) (tx : Transaction) :
  T <> 0%N -> txType tx = T ->
  validate (newTaxonomy nm {[0 := mkEntry T false]} sem) (contractOf []) = Return false /\
  validate (newTaxonomy nm {[0 := mkEntry T false]} sem) (contractOf [tx]) = Return true.
Proof.
  intros HT Htx. split; [reflexivity|].
  unfold validate, newTaxonomy, acceptsType, includes. simpl.
  rewrite getTransactionTypes_singleton. simpl.
  rewrite Htx. apply N.eqb_neq in HT. rewrite HT. simpl.
  rewrite bool_decide_eq_true_2 by set_solver. simpl.
  rewrite map_size_singleton. simpl.
  unfold walkBody. simpl. rewrite lookup_singleton_eq. simpl.
  reflexivity.
Qed.

Lemma single_optional_entry_witness :
  validate (newTaxonomy "optional" {[0 := mkEntry TRANSFER false]} ∅) (contractOf [])
  = Return false /\
  validate (newTaxonomy "optional" {[0 := mkEntry TRANSFER false]} ∅)
    (contractOf [typed TRANSFER]) = Return true.
Proof.
  apply (single_optional_entry "optional" TRANSFER ∅ (typed TRANSFER)).
  - discriminate.
  - reflexivity.
Defined.

(** The two side conditions of the amended claim are needed: the
    reserved type 0 is never accepted, and an entry stored at another
    position than 0 is not found by the walk. *)
Example single_optional_entry_reserved_type :
  validate (optionalGrammar RESERVED 0) (contractOf [typed RESERVED]) = Return false.
Proof. vm_compute. reflexivity. Qed.

Example single_optional_entry_other_position :
  validate (optionalGrammar TRANSFER 5) (contractOf [typed TRANSFER]) = Throw TypeError.
Proof. vm_compute. reflexivity. Qed.

(** *** Repeatable entries *)

(** C2, as the claim states it, fails: the repeatable entry at position
    0 of [bundleGrammar] finds no repetition in the candidate, and the
    walk returns false for that reason. *)
Lemma zero_repetitions_rejected :
  validateBundle (bundleOf bundleGrammar bundleEntry bundleRules 0)
    (drop (cursorOf walkStart) [typed TRANSFER]) = Return 0 /\
  walkBody bundleGrammar [typed TRANSFER] walkStart = Stop false /\
  validate bundleGrammar (contractOf [typed TRANSFER]) = Return false.
Proof. repeat split; vm_compute; reflexivity. Qed.

(** C2, amended. When the walk of [validate] comes to a required entry
    with a repeatable rule and no full repetition of its bundle starts
    at the cursor, the walk stops and [validate] returns false. An entry
    that is not required is passed over by the branch for optional
    entries, whatever its rule says. *)
Theorem zero_repetitions_fail (t : Taxonomy) (c : AggregateTransaction)
    (w : Walk) (entry : TaxonomyMapEntry) (rules : SemanticRuleset) :
  preFiltered t c ->
  reaches t (innerTransactions c) w ->
  i w < size (sequence t) ->
  sequence t !! i w = Some entry ->
  semantics t !! i w = Some rules ->
  repeatable rules = true ->
  validateBundle (bundleOf t entry rules (i w))
    (drop (cursorOf w) (innerTransactions c)) = Return 0 ->
  (required entry = true ->
     walkBody t (innerTransactions c) w = Stop false /\
     validate t c = Return false) /\
  (required entry = false ->
     exists w', walkBody t (innerTransactions c) w = Continue w' /\ i w' = S (i w)).
Proof.
  intros Hadm Hreach Hlt Hentry Hrules Hrep Hzero. split; intros Hreq.
  - assert (walkBody t (innerTransactions c) w = Stop false) as Hbody.
    { unfold walkBody, repeatableEntry. rewrite Hentry, Hrules, Hreq, Hrep. simpl.
      by rewrite Hzero. }
    split; [done|]. by eapply validate_stops_at.
  - unfold walkBody, optionalEntry. rewrite Hentry, Hreq. simpl. eauto.
Qed.

Lemma bundleGrammar_preFilters_transfer :
  preFiltered bundleGrammar (contractOf [typed TRANSFER]).
Proof. repeat split; vm_compute; congruence. Qed.

Lemma zero_repetitions_fail_witness :
  walkBody bundleGrammar [typed TRANSFER] walkStart = Stop false /\
  validate bundleGrammar (contractOf [typed TRANSFER]) = Return false.
Proof.
  apply (zero_repetitions_fail bundleGrammar (contractOf [typed TRANSFER])
           walkStart bundleEntry bundleRules).
  - exact bundleGrammar_preFilters_transfer.
  - constructor.
  - vm_compute. lia.
  - vm_compute. reflexivity.
  - vm_compute. reflexivity.
  - reflexivity.
  - vm_compute. reflexivity.
  - reflexivity.
Defined.

Lemma bundleOf_length t entry rules k :
  length (bundleOf t entry rules k) = Nat.max 1 (length (bundleWith rules)).
Proof. unfold bundleOf. simpl. rewrite length_fmap, length_seq. lia. Qed.

(** C3, the defect. The bundle of the repeatable entry at position 0
    of [bundleGrammar] has length 1 and one repetition is found, yet
    the walk goes on at position 2, not at position 1 as the claim and
    the comment "Move depending on bundle size" say: the body sets
    [i = i + bundle.length] and the loop's own [i++] moves one entry
    further. The required entry at position 1 is never examined, so a
    candidate without the transfer it asks for is accepted, against
    "Required entries must appear". *)
Lemma repeatable_entry_skips_following_entry :
  walkBody bundleGrammar [typed MOSAIC_ADDRESS_RESTRICTION] walkStart
  = Continue {| i := 2; skip := 0; bundled := 1 |} /\
  i walkStart + length (bundleWith bundleRules) = 1 /\
  validate bundleGrammar (contractOf [typed MOSAIC_ADDRESS_RESTRICTION]) = Return true.
Proof. repeat split; vm_compute; reflexivity. Qed.

(** The slip is not particular to that grammar. At every required
    repeatable entry at position [i] with [n > 0] repetitions found,
    the bundle is the entry plus [bundleWith.length - 1] following
    entries, of length [L = max 1 bundleWith.length]; the walk adds
    [n * L] to [bundled] and goes on at position [i + L + 1], one past
    the end of the bundle: the entry at position [i + L] is skipped. *)
Theorem repeatable_entry_advance (t : Taxonomy) (txs : list Transaction)
    (w : Walk) (entry : TaxonomyMapEntry) (rules : SemanticRuleset) (n : nat) :
  sequence t !! i w = Some entry ->
  required entry = true ->
  semantics t !! i w = Some rules ->
  repeatable rules = true ->
  validateBundle (bundleOf t entry rules (i w)) (drop (cursorOf w) txs) = Return n ->
  0 < n ->
  let L := length (bundleOf t entry rules (i w)) in
  let w' := {| i := i w + L + 1; skip := skip w; bundled := bundled w + n * L |} in
  L = Nat.max 1 (length (bundleWith rules)) /\
  walkBody t txs w = Continue w' /\
  (forall fuel max, i w < max ->
     walkLoop (S fuel) t txs max w = walkLoop fuel t txs max w').
Proof.
  intros Hentry Hreq Hrules Hrep Hn Hpos L w'.
  assert (walkBody t txs w = Continue w') as Hbody.
  { unfold walkBody, repeatableEntry. rewrite Hentry, Hrules, Hreq, Hrep. simpl.
    rewrite Hn.
    destruct n as [|n]; [lia|]. subst w' L. f_equal.
    f_equal; unfold bundleOf; simpl; lia. }
  split; [apply bundleOf_length|]. split; [done|].
  intros fuel max Hlt. simpl. apply Nat.leb_gt in Hlt. by rewrite Hlt, Hbody.
Qed.

Lemma repeatable_entry_advance_witness :
  walkBody bundleGrammar [typed MOSAIC_ADDRESS_RESTRICTION] walkStart
  = Continue {| i := 0 + 1 + 1; skip := 0; bundled := 0 + 1 * 1 |}.
Proof.
  apply (repeatable_entry_advance bundleGrammar [typed MOSAIC_ADDRESS_RESTRICTION]
           walkStart bundleEntry bundleRules 1).
  - vm_compute. reflexivity.
  - reflexivity.
  - vm_compute. reflexivity.
  - reflexivity.
  - vm_compute. reflexivity.
  - lia.
Defined.

(** ** Claims on contracts and their authorization *)

Section ContractClaims.
Import Contracts.

Lemma assertHasMandatoryArguments_present c argv fields :
  hasMandatoryArguments c fields ->
  assertHasMandatoryArguments c argv fields = Return true.
Proof.
  induction 1 as [|f rest Hf _ IH]; simpl; [done|].
  destruct (getInput c f VNull); done.
Qed.

Lemma assertHasMandatoryArguments_outcome c argv fields :
  assertHasMandatoryArguments c argv fields = Return true \/
  exists f, f ∈ fields /\ assertHasMandatoryArguments c argv fields
                          = Throw (FailureMissingArgument f).
Proof.
  induction fields as [|f rest IH]; simpl; [by left|].
  assert (f ∈ f :: rest) as Hf by constructor.
  assert (assertHasMandatoryArguments c argv rest = Return true \/
          exists f', f' ∈ f :: rest /\ assertHasMandatoryArguments c argv rest
                                       = Throw (FailureMissingArgument f')) as IH'.
  { destruct IH as [IH|(f' & Hin & IH)]; [by left|].
    right. exists f'. split; [by constructor|done]. }
  destruct (getInput c f VNull); eauto.
Qed.

(** The assertion reads the context; the [argv] it receives is not
    used. *)
Lemma assertHasMandatoryArguments_argv c argv1 argv2 fields :
  assertHasMandatoryArguments c argv1 fields
  = assertHasMandatoryArguments c argv2 fields.
Proof.
  induction fields as [|f rest IH]; simpl; [done|].
  destruct (getInput c f VNull); done.
Qed.

(** C9. The result of [Executable.canExecute], and of each override of
    it in the contracts, is the same for any two [argv] parameters, the
    instance (its context and its copy of the organization state) and
    the actor being the same. *)
Theorem canExecute_independent_of_argv (fields : list string) (e : Executable)
    (actor : PublicAccount) (argv1 argv2 : option (list ContractOption)) :
  Executable_canExecute fields e actor argv1 = Executable_canExecute fields e actor argv2 /\
  CreateAgreement_canExecute e actor argv1 = CreateAgreement_canExecute e actor argv2 /\
  CommitAgreement_canExecute e actor argv1 = CommitAgreement_canExecute e actor argv2 /\
  CreateDAO_canExecute e actor argv1 = CreateDAO_canExecute e actor argv2 /\
  CreateVote_canExecute e actor argv1 = CreateVote_canExecute e actor argv2.
Proof.
  unfold Executable_canExecute, CreateAgreement_canExecute,
    CommitAgreement_canExecute, CreateDAO_canExecute, CreateVote_canExecute.
  repeat split;
    by rewrite (assertHasMandatoryArguments_argv _ argv1 argv2).
Qed.

(** C6. [execute] runs the authorization check again and throws
    [FailureOperationForbidden] when its status is negative; when the
    check passes it requests the transaction list and throws
    [FailureEmptyContract] when the list is empty; when the check
    passes and the list is not empty it returns the transaction URI
    that wraps the serialized aggregate of that list; and it returns a
    transaction URI in no other case. *)
Theorem execute_guards (ext : External) (e : Executable) (actor : PublicAccount)
    (argv : option (list ContractOption)) :
  (forall r, canExecute ext e actor argv = Return r -> status r = false ->
     execute ext e actor argv = Throw FailureOperationForbidden) /\
  (forall r, canExecute ext e actor argv = Return r -> status r = true ->
     transactions ext e = Return [] ->
     execute ext e actor argv = Throw FailureEmptyContract) /\
  (forall r txs payload,
     canExecute ext e actor argv = Return r -> status r = true ->
     transactions ext e = Return txs -> txs <> [] ->
     sdkSerialize ext {| aggregateType := AGGREGATE_BONDED;
                         innerTransactions := txs;
                         transactionInfo := false |} = Return payload ->
     execute ext e actor argv = Return {| data := payload |}) /\
  (forall uri, execute ext e actor argv = Return uri ->
     exists r txs,
       canExecute ext e actor argv = Return r /\ status r = true /\
       transactions ext e = Return txs /\ txs <> [] /\
       sdkSerialize ext {| aggregateType := AGGREGATE_BONDED;
                           innerTransactions := txs;
                           transactionInfo := false |} = Return (data uri)).
Proof.
  unfold execute, assertExecutionAllowance, prepare.
  split; [|split; [|split]].
  - intros r -> Hr. simpl. by rewrite Hr.
  - intros r -> Hr Htxs. simpl. rewrite Hr, Htxs. reflexivity.
  - intros r txs payload -> Hr Htxs Hne Hpayload. simpl. rewrite Hr, Htxs. simpl.
    destruct txs as [|tx txs]; [done|]. simpl. by rewrite Hpayload.
  - intros uri. destruct (canExecute ext e actor argv) as [r|f]; [|discriminate].
    simpl. destruct (status r) eqn:Hr; [|discriminate]. simpl.
    destruct (transactions ext e) as [txs|f]; [|discriminate]. simpl.
    destruct txs as [|tx txs]; [discriminate|]. simpl.
    destruct (sdkSerialize ext _) as [payload|f] eqn:Hpayload; [|discriminate].
    simpl. intros [= <-]. exists r, (tx :: txs). by repeat split.
Qed.

Lemma execute_guards_witness :
  execute sampleExternal (instanceOf sampleOrganization CreateDAO daoArgv)
    sampleOperator None = Throw FailureOperationForbidden /\
  execute sampleExternal (instanceOf sampleOrganization CreateVote voteArgv)
    sampleOperator None = Throw FailureEmptyContract /\
  execute sampleExternal (instanceOf sampleOrganization CommitAgreement commitArgv)
    sampleOperator None = Return {| data := "16978,16724,16724" |} /\
  exists r txs,
    canExecute sampleExternal (instanceOf sampleOrganization CommitAgreement commitArgv)
      sampleOperator None = Return r /\
    status r = true /\
    transactions sampleExternal (instanceOf sampleOrganization CommitAgreement commitArgv)
      = Return txs /\
    txs <> [] /\
    sdkSerialize sampleExternal
      {| aggregateType := AGGREGATE_BONDED; innerTransactions := txs;
         transactionInfo := false |}
    = Return (data {| data := "16978,16724,16724" |}).
Proof.
  split; [|split; [|split]].
  - apply (proj1 (execute_guards sampleExternal
             (instanceOf sampleOrganization CreateDAO daoArgv) sampleOperator None)
             (allowance false)); reflexivity.
  - apply (proj1 (proj2 (execute_guards sampleExternal
             (instanceOf sampleOrganization CreateVote voteArgv) sampleOperator None))
             (allowance true)); reflexivity.
  - apply (proj1 (proj2 (proj2 (execute_guards sampleExternal
             (instanceOf sampleOrganization CommitAgreement commitArgv)
             sampleOperator None)))
             (allowance true)
             [typed SECRET_PROOF; typed TRANSFER; typed TRANSFER]);
      [reflexivity|reflexivity|reflexivity|discriminate|vm_compute; reflexivity].
  - apply (proj2 (proj2 (proj2 (execute_guards sampleExternal
             (instanceOf sampleOrganization CommitAgreement commitArgv)
             sampleOperator None)))). vm_compute. reflexivity.
Defined.

(** C1, as the claim states it, fails: with no agreement confirmed,
    [CommitAgreement] authorizes whoever names the organization's
    target account, as its unit test expects. *)
Lemma commit_agreement_allowed_without_agreement :
  Governable.agreement sampleOrganization = None /\
  hasMandatoryArguments
    (Governable.getContext sampleOrganization sampleOperator defaultParameters
       (Some commitArgv))
    CommitAgreement_arguments /\
  Governable.canExecute sampleExternal sampleOrganization sampleOperator
    sampleIdentifier "CommitAgreement" commitArgv = Return (allowance true).
Proof.
  split; [reflexivity|]. split; [|reflexivity].
  repeat constructor; discriminate.
Qed.

(** [CreateVote], a contract that builds no operation yet, does not
    look at the agreement either. *)
Example create_vote_allowed_without_agreement :
  Governable.canExecute sampleExternal sampleOrganization sampleOperator
    sampleIdentifier "CreateVote" voteArgv = Return (allowance true).
Proof. reflexivity. Qed.

(** C1, amended. For an organization without confirmed agreement and
    inputs that hold the mandatory arguments of the contract:
    [CreateAgreement] reports status true; [CreateDAO] reports status
    false; [CommitAgreement] reports whether the account given as
    [target] input has the address of the organization's target
    account. *)
Theorem unset_agreement_authorizations (ext : External)
    (org : Governable.DistributedOrganization) (actor : PublicAccount)
    (governAssetId : AssetIdentifier) (argv : list ContractOption) :
  Governable.agreement org = None ->
  let c := Governable.getContext org actor defaultParameters (Some argv) in
  (hasMandatoryArguments c CreateAgreement_arguments ->
     Governable.canExecute ext org actor governAssetId "CreateAgreement" argv
     = Return (allowance true)) /\
  (hasMandatoryArguments c CreateDAO_arguments ->
     Governable.canExecute ext org actor governAssetId "CreateDAO" argv
     = Return (allowance false)) /\
  (hasMandatoryArguments c CommitAgreement_arguments ->
     forall a, getInput c "target" VBlankAccount = VAccount a ->
     Governable.canExecute ext org actor governAssetId "CommitAgreement" argv
     = Return (allowance (equals (address a) (address (target_ governAssetId))))).
Proof.
  intros Hagr c.
  pose (inst := fun k => Governable.populate org (newExecutable k c governAssetId)).
  split; [|split].
  - intros H.
    change (CreateAgreement_canExecute (inst CreateAgreement) actor (Some argv)
            = Return (allowance true)).
    unfold CreateAgreement_canExecute.
    cbn [inst context agreement Governable.populate newExecutable].
    by rewrite (assertHasMandatoryArguments_present c (Some argv) _ H), Hagr.
  - intros H.
    change (CreateDAO_canExecute (inst CreateDAO) actor (Some argv)
            = Return (allowance false)).
    unfold CreateDAO_canExecute.
    cbn [inst context agreement Governable.populate newExecutable].
    by rewrite (assertHasMandatoryArguments_present c (Some argv) _ H), Hagr.
  - intros H a Ha.
    change (CommitAgreement_canExecute (inst CommitAgreement) actor (Some argv)
            = Return (allowance (equals (address a) (address (target_ governAssetId))))).
    unfold CommitAgreement_canExecute.
    cbn [inst context agreement target Governable.populate newExecutable].
    by rewrite (assertHasMandatoryArguments_present c (Some argv) _ H), Hagr, Ha.
Qed.

Lemma unset_agreement_authorizations_witness :
  Governable.canExecute sampleExternal sampleOrganization sampleOperator
    sampleIdentifier "CreateDAO" daoArgv = Return (allowance false) /\
  Governable.canExecute sampleExternal sampleOrganization sampleOperator
    sampleIdentifier "CommitAgreement" commitArgv
  = Return (allowance (equals (address sampleTarget) (address (target_ sampleIdentifier)))).
Proof.
  split.
  - apply (unset_agreement_authorizations sampleExternal sampleOrganization
             sampleOperator sampleIdentifier daoArgv); [reflexivity|].
    repeat constructor; discriminate.
  - apply (unset_agreement_authorizations sampleExternal sampleOrganization
             sampleOperator sampleIdentifier commitArgv); [reflexivity| |reflexivity].
    repeat constructor; discriminate.
Defined.

(** ** Claims on the orchestrator *)

(** A name that is no property of [DigitalContracts], own or inherited,
    is refused with [FailureInvalidContract] by the lookup itself: no
    contract is instantiated, and neither the authorization policies
    nor the parts outside the sources have any say. *)
Lemma unknown_contract_rejected (ext : External)
    (org : Governable.DistributedOrganization) (actor : PublicAccount)
    (governAssetId : AssetIdentifier) (command : string)
    (parameters : TransactionParameters) (argv : list ContractOption) :
  Governable.lookupContract command = None ->
  (forall context, Governable.getContract governAssetId command context
                   = Throw FailureInvalidContract) /\
  Governable.canExecute ext org actor governAssetId command argv
  = Throw FailureInvalidContract /\
  Governable.executeOffline ext org actor governAssetId command parameters argv
  = Throw FailureInvalidContract /\
  (forall net, (Governable.synchronize net org).2 = Return true ->
     (Governable.execute ext net org actor governAssetId command parameters argv).2
     = Throw FailureInvalidContract).
Proof.
  intros Hnone.
  assert (forall context, Governable.getContract governAssetId command context
                          = Throw FailureInvalidContract) as Hget.
  { intros context. unfold Governable.getContract. by rewrite Hnone. }
  split; [done|].
  unfold Governable.execute, Governable.executeOffline, Governable.canExecute.
  split; [by rewrite Hget|]. split; [by rewrite Hget|].
  intros net. destruct (Governable.synchronize net org) as [org' r]. simpl.
  intros ->. by rewrite Hget.
Qed.

Example unknown_contract_rejected_example :
  Governable.canExecute sampleExternal sampleOrganization sampleOperator
    sampleIdentifier "unknown" [] = Throw FailureInvalidContract.
Proof. reflexivity. Qed.

(** C8, the defect. The name ["constructor"] is none of the five
    contract names, yet the property read finds the member every object
    inherits: no [FailureInvalidContract] is raised, the call yields
    something that is not a contract, and the dispatch ends in a
    [TypeError]. *)
Theorem inherited_name_not_rejected (ext : External)
    (net : Governable.Network)
    (org : Governable.DistributedOrganization) (actor : PublicAccount)
    (governAssetId : AssetIdentifier) (context : Context)
    (parameters : TransactionParameters) (argv : list ContractOption) :
  Governable.getContract governAssetId "constructor" context
  = Return Governable.NoContract /\
  Governable.canExecute ext org actor governAssetId "constructor" argv
  = Throw TypeError /\
  Governable.executeOffline ext org actor governAssetId "constructor" parameters argv
  = Throw TypeError /\
  (Governable.execute ext net org actor governAssetId "constructor" parameters argv).2
  = (try! _ := (Governable.synchronize net org).2 in Throw TypeError).
Proof.
  repeat split. unfold Governable.execute.
  by destruct (Governable.synchronize net org) as [org' [b|f]].
Qed.

(** C7, as the claim states it, fails: when the mosaic read fails, its
    error is replaced by [undefined], which is assigned; the field does
    not keep its previous value. The operator set and the metadata do. *)
Lemma failed_mosaic_read_resets_field :
  (Governable.synchronize failingNetwork syncedOrganization).2 = Return true /\
  Governable.mosaicInfo syncedOrganization = Some (mkMosaicInfo "9E03FAED") /\
  Governable.mosaicInfo (Governable.synchronize failingNetwork syncedOrganization).1
  = None /\
  Governable.operators (Governable.synchronize failingNetwork syncedOrganization).1
  = Governable.operators syncedOrganization /\
  Governable.metadata (Governable.synchronize failingNetwork syncedOrganization).1
  = Governable.metadata syncedOrganization.
Proof. repeat split; vm_compute; reflexivity. Qed.

(** C7, amended. Once the agreement read from the network has been
    verified, [synchronize] returns true whatever the three following
    reads do, and each of the three fields depends on its own read
    only: the operator set and the metadata keep their previous value
    when their read fails; the mosaic information keeps its previous
    value when the call of the read throws, and is reset to [undefined]
    when the read itself fails. *)
Theorem synchronize_best_effort (net : Governable.Network)
    (org : Governable.DistributedOrganization) (hash : string)
    (tx : option AggregateTransaction) :
  Governable.agreementHash org = Some hash ->
  hash <> ""%string ->
  Governable.readTransactionFromNetwork net hash = Return tx ->
  Governable.verifyAuthenticity
    (Governable.getContext org (Governable.target org) defaultParameters None)
    (Governable.identifier org) tx = Return true ->
  let org' := (Governable.synchronize net org).1 in
  (Governable.synchronize net org).2 = Return true /\
  Governable.mosaicInfo org'
  = match Governable.readMosaicInfo net (Governable.identifier org) with
    | Return m => m
    | Throw _ => Governable.mosaicInfo org
    end /\
  Governable.operators org'
  = match Governable.readOperators net (address (Governable.target org)) with
    | Return ops => ops
    | Throw _ => Governable.operators org
    end /\
  Governable.metadata org'
  = match Governable.readMetadataFromNetwork net (address (Governable.target org)) with
    | Return m => Some m
    | Throw _ => Governable.metadata org
    end /\
  (Governable.getMosaic net (Governable.identifier org) = Return Governable.Errors ->
     Governable.mosaicInfo org' = None).
Proof.
  intros Hhash Hne Hread Hverify org'. subst org'.
  unfold Governable.synchronize. rewrite Hhash.
  assert ((String.length hash =? 0) = false) as ->.
  { destruct hash; [done|reflexivity]. }
  rewrite Hread. cbn [Governable.withAgreement Governable.identifier
    Governable.agreement]. rewrite Hverify. cbn [fst snd].
  unfold Governable.refresh, Governable.tryAssign, Governable.target.
  cbn [Governable.withAgreement Governable.identifier].
  assert (forall f, Governable.getMosaic net (Governable.identifier org)
                    = Return Governable.Errors ->
            match Governable.readMosaicInfo net (Governable.identifier org) with
            | Return m => m
            | Throw _ => f
            end = None) as Hmosaic.
  { intros f Herr. unfold Governable.readMosaicInfo. by rewrite Herr. }
  repeat split.
  - by destruct (Governable.readMosaicInfo net _), (Governable.readOperators net _),
         (Governable.readMetadataFromNetwork net _).
  - by destruct (Governable.readMosaicInfo net _), (Governable.readOperators net _),
         (Governable.readMetadataFromNetwork net _).
  - by destruct (Governable.readMosaicInfo net _), (Governable.readOperators net _),
         (Governable.readMetadataFromNetwork net _).
  - intros Herr. rewrite <- (Hmosaic (Governable.mosaicInfo org) Herr).
    by destruct (Governable.readMosaicInfo net _), (Governable.readOperators net _),
         (Governable.readMetadataFromNetwork net _).
Qed.

Lemma synchronize_best_effort_witness :
  (Governable.synchronize failingNetwork syncedOrganization).2 = Return true /\
  Governable.operators (Governable.synchronize failingNetwork syncedOrganization).1
  = Governable.operators syncedOrganization /\
  Governable.mosaicInfo (Governable.synchronize failingNetwork syncedOrganization).1
  = None.
Proof.
  destruct (synchronize_best_effort failingNetwork syncedOrganization
              "5F7E0D6C1A9B" (Some sampleAgreement))
    as (Htrue & _ & Hoperators & _ & Hmosaic).
  - reflexivity.
  - discriminate.
  - reflexivity.
  - vm_compute. reflexivity.
  - split; [exact Htrue|]. split; [exact Hoperators|].
    apply Hmosaic. reflexivity.
Defined.

End ContractClaims.

(** * Further properties of the code *)

(** ** Registered types and the type filter *)

Lemma elem_of_sequenceValues (seq : TaxonomyMap) (e : TaxonomyMapEntry) :
  e ∈ sequenceValues seq <-> exists k, seq !! k = Some e.
Proof.
  unfold sequenceValues. rewrite list_elem_of_omap. split.
  - intros (k & _ & Hk). eauto.
  - intros (k & Hk). exists k. split; [|done].
    rewrite merge_sort_Permutation. apply list_elem_of_fmap.
    exists (k, e). split; [done|]. by apply elem_of_map_to_list.
Qed.

(** The loop creates each key once, and the keys are the types it went
    through. *)
Lemma uniqTypes_loop (types keys : list TransactionType) :
  let result :=
    foldl (fun keys ty => if bool_decide (ty ∈ keys) then keys else keys ++ [ty])
      keys types in
  (NoDup keys -> NoDup result) /\
  (forall ty, ty ∈ result <-> ty ∈ keys \/ ty ∈ types).
Proof.
  revert keys. induction types as [|t types IH]; intros keys; cbn.
  - split; [done|]. intros ty. rewrite elem_of_nil. tauto.
  - destruct (IH (if bool_decide (t ∈ keys) then keys else keys ++ [t]))
      as [Hnodup Hin].
    split.
    + intros Hkeys. apply Hnodup. case_bool_decide as Ht; [done|].
      apply NoDup_app. split; [done|]. split; [|apply NoDup_singleton].
      intros x Hx ->%list_elem_of_singleton. done.
    + intros ty. rewrite Hin, elem_of_cons. case_bool_decide as Ht.
      * split; [tauto|]. intros [?|[->|?]]; tauto.
      * rewrite elem_of_app, list_elem_of_singleton. tauto.
Qed.

Lemma elem_of_objectKeys (created : list TransactionType) (ty : TransactionType) :
  ty ∈ objectKeys created <-> ty ∈ created.
Proof.
  unfold objectKeys.
  rewrite elem_of_app, merge_sort_Permutation, !list_elem_of_filter.
  destruct (decide (ty < 4294967295)%N); tauto.
Qed.

Lemma NoDup_objectKeys (created : list TransactionType) :
  NoDup created -> NoDup (objectKeys created).
Proof.
  intros Hnodup. unfold objectKeys. apply NoDup_app. split; [|split].
  - rewrite merge_sort_Permutation. by apply NoDup_filter.
  - intros x. rewrite merge_sort_Permutation, !list_elem_of_filter. tauto.
  - by apply NoDup_filter.
Qed.

(** When every key is an array index the keys come out in ascending
    order. *)
Lemma objectKeys_sorted (created : list TransactionType) :
  Forall (fun n => (n < 4294967295)%N) created ->
  StronglySorted N.le (objectKeys created).
Proof.
  intros Hall. unfold objectKeys.
  assert (filter (fun n => ¬ (n < 4294967295)%N) created = []) as ->.
  { induction Hall as [|n l Hn _ IH]; [done|].
    rewrite filter_cons. by case_decide. }
  rewrite app_nil_r. apply StronglySorted_merge_sort; apply _.
Qed.

Lemma elem_of_getTransactionTypes (seq : TaxonomyMap) (ty : TransactionType) :
  ty ∈ getTransactionTypes seq <-> exists k e, seq !! k = Some e /\ type e = ty.
Proof.
  unfold getTransactionTypes, uniqTypes. rewrite elem_of_objectKeys.
  rewrite (proj2 (uniqTypes_loop _ [])), elem_of_nil, list_elem_of_fmap.
  split.
  - intros [[]|(e & -> & He)]. apply elem_of_sequenceValues in He as [k Hk]. eauto.
  - intros (k & e & Hk & <-). right. exists e. split; [done|].
    apply elem_of_sequenceValues. eauto.
Qed.

(** X1. [getTransactionTypes] lists exactly the types of the entries of
    the sequence, each once: the loop creates a key of [uniqTypes] only
    when the object does not have it yet, and [Object.keys] hands every
    key back once, whatever its place in the list. *)
Theorem getTransactionTypes_unique (seq : TaxonomyMap) :
  NoDup (getTransactionTypes seq) /\
  (forall ty, ty ∈ getTransactionTypes seq <->
              exists k e, seq !! k = Some e /\ type e = ty).
Proof.
  split.
  - unfold getTransactionTypes, uniqTypes. apply NoDup_objectKeys.
    apply (proj1 (uniqTypes_loop _ [])). constructor.
  - apply elem_of_getTransactionTypes.
Qed.

(** X2. A taxonomy accepts a type exactly when the type is not the
    reserved type 0 and some entry of the sequence it was constructed
    from has it; [undefined] is never accepted. *)
Theorem acceptsType_constructed (nm : string) (seq : TaxonomyMap)
    (sem : SemanticsMap) (ty : TransactionType) :
  acceptsType (newTaxonomy nm seq sem) None = false /\
  (acceptsType (newTaxonomy nm seq sem) (Some ty) = true <->
   ty <> 0%N /\ exists k e, seq !! k = Some e /\ type e = ty).
Proof.
  split; [reflexivity|].
  unfold acceptsType, includes, truthy. simpl.
  rewrite !andb_true_iff, negb_true_iff, N.eqb_neq, Nat.ltb_lt, bool_decide_eq_true.
  rewrite elem_of_getTransactionTypes. split; [tauto|].
  intros (Hty & k & e & Hk & He). repeat split; eauto.
  assert (ty ∈ getTransactionTypes seq) as Hin
    by (apply elem_of_getTransactionTypes; eauto).
  destruct (getTransactionTypes seq); [by apply elem_of_nil in Hin|simpl; lia].
Qed.

(** X3. [validate] never accepts a candidate that is empty or holds an
    operation whose type is 0 or not registered, whatever the grammar. *)
Theorem validate_true_filtered (t : Taxonomy) (c : AggregateTransaction) :
  validate t c = Return true ->
  innerTransactions c <> [] /\
  forall tx, tx ∈ innerTransactions c ->
             txType tx <> 0%N /\ txType tx ∈ registeredTypes t.
Proof.
  unfold validate.
  destruct (innerTransactions c) as [|tx0 txs] eqn:Htxs; [discriminate|]. simpl length.
  simpl Nat.eqb. cbv iota.
  destruct (length (registeredTypes t) =? 0); [discriminate|].
  destruct (forallb _ _) eqn:Hall; [|discriminate]. intros _.
  split; [done|]. intros tx Htx.
  rewrite forallb_forall in Hall. apply list_elem_of_In, Hall in Htx.
  unfold acceptsType, includes, truthy in Htx.
  rewrite !andb_true_iff, negb_true_iff, N.eqb_neq, bool_decide_eq_true in Htx.
  tauto.
Qed.

Lemma validate_true_filtered_witness :
  innerTransactions (contractOf [typed SECRET_PROOF; typed TRANSFER; typed TRANSFER]) <> [] /\
  forall tx, tx ∈ innerTransactions
                    (contractOf [typed SECRET_PROOF; typed TRANSFER; typed TRANSFER]) ->
             txType tx <> 0%N /\ txType tx ∈ registeredTypes commitGrammar.
Proof.
  apply (validate_true_filtered commitGrammar
           (contractOf [typed SECRET_PROOF; typed TRANSFER; typed TRANSFER])).
  vm_compute. reflexivity.
Defined.

(** ** Counting the repetitions of a bundle *)

Lemma blockAt_cons (e : TransactionType) (len pos : nat) (txs : list Transaction)
    (bundle : list TransactionType) :
  blockAt (S len) pos txs = e :: bundle <->
  exists tx, txs !! pos = Some tx /\ txType tx = e /\ blockAt len (S pos) txs = bundle.
Proof.
  unfold blockAt. destruct (txs !! pos) as [tx|] eqn:Htx.
  - rewrite (drop_S (txType <$> txs) (txType tx) pos)
      by (by rewrite list_lookup_fmap, Htx).
    simpl. split.
    + intros [= <- <-]. eauto.
    + intros (tx' & [= <-] & <- & <-). done.
  - rewrite drop_ge by (rewrite length_fmap; by apply lookup_ge_None).
    simpl. split; [discriminate|]. by intros (tx' & ? & _).
Qed.

Lemma bundleFor_blockAt (entries : list TaxonomyMapEntry) (txs : list Transaction)
    (pos : nat) (isBundle : bool) :
  entries <> [] ->
  bundleFor (Some <$> entries) txs pos isBundle
  = Return (bool_decide (blockAt (length entries) pos txs = type <$> entries)).
Proof.
  revert pos isBundle.
  induction entries as [|e rest IH]; intros pos isBundle Hne; [done|].
  cbn [fmap list_fmap bundleFor length].
  destruct (txs !! pos) as [tx|] eqn:Htx.
  - destruct (negb (txType tx =? type e)%N) eqn:Hty.
    + apply negb_true_iff, N.eqb_neq in Hty.
      rewrite bool_decide_eq_false_2; [done|].
      rewrite blockAt_cons. intros (tx' & Htx' & Hty' & _). congruence.
    + apply negb_false_iff, N.eqb_eq in Hty.
      destruct rest as [|e' rest'].
      * simpl. rewrite bool_decide_eq_true_2; [done|].
        apply blockAt_cons. exists tx. by repeat split.
      * rewrite IH by done. f_equal. apply bool_decide_ext.
        change (type <$> e :: e' :: rest') with (type e :: (type <$> e' :: rest')).
        rewrite blockAt_cons. split; [eauto|].
        by intros (tx' & _ & _ & ?).
  - rewrite bool_decide_eq_false_2; [done|].
    rewrite blockAt_cons. intros (tx' & ? & _). congruence.
Qed.

Lemma blockAt_length (len pos : nat) (txs : list Transaction) (bundle : list TransactionType) :
  blockAt len pos txs = bundle -> length bundle = len -> 0 < len ->
  pos + len <= length txs.
Proof.
  unfold blockAt. intros <-. rewrite length_take, length_drop, length_fmap. lia.
Qed.

Lemma bundleLoop_counts (entries : list TaxonomyMapEntry) (txs : list Transaction)
    (fuel cnt : nat) (isBundle : bool) :
  entries <> [] ->
  cnt * length entries <= length txs ->
  length txs < fuel + cnt ->
  exists n,
    bundleLoop fuel (Some <$> entries) txs isBundle cnt = Return n /\
    cnt <= n /\
    (forall j, cnt <= j < n ->
       blockAt (length entries) (j * length entries) txs = type <$> entries) /\
    blockAt (length entries) (n * length entries) txs <> type <$> entries.
Proof.
  intros Hne.
  assert (0 < length entries) as Hpos by (destruct entries; [done|simpl; lia]).
  revert cnt isBundle.
  induction fuel as [|fuel IH]; intros cnt isBundle Hcnt Hfuel.
  - exfalso. nia.
  - cbn [bundleLoop]. rewrite length_fmap, bundleFor_blockAt by done.
    destruct (decide (blockAt (length entries) (cnt * length entries) txs
                      = type <$> entries)) as [Hblock|Hblock].
    + rewrite bool_decide_eq_true_2 by done.
      pose proof (blockAt_length _ _ _ _ Hblock (length_fmap _ _) Hpos) as Hlen.
      destruct (IH (S cnt) true) as (n & Hn & Hle & Hall & Hstop); [simpl; lia|lia|].
      exists n. repeat split; [done|lia| |done].
      intros j Hj. destruct (decide (j = cnt)) as [->|]; [done|]. apply Hall. lia.
    + rewrite bool_decide_eq_false_2 by done.
      exists cnt. repeat split; [lia| |done]. intros j Hj. lia.
Qed.

(** X4. [validateBundle] returns the number [n] of consecutive full
    repetitions of the bundle at the start of the transactions: each of
    the first [n] blocks has the types of the bundle in order, the
    block after them has not. For an empty bundle it returns 0. *)
Theorem validateBundle_counts (entries : list TaxonomyMapEntry)
    (txs : list Transaction) :
  validateBundle [] txs = Return 0 /\
  (entries <> [] ->
   exists n,
     validateBundle (Some <$> entries) txs = Return n /\
     n * length entries <= length txs /\
     (forall j, j < n ->
        blockAt (length entries) (j * length entries) txs = type <$> entries) /\
     blockAt (length entries) (n * length entries) txs <> type <$> entries).
Proof.
  split; [reflexivity|]. intros Hne. unfold validateBundle.
  destruct (bundleLoop_counts entries txs (S (length txs)) 0 false Hne)
    as (n & Hn & _ & Hall & Hstop); [lia|lia|].
  exists n. repeat split; [done| |intros j Hj; apply Hall; lia|done].
  destruct n as [|n]; [lia|].
  assert (0 < length entries) as Hpos by (destruct entries; [done|simpl; lia]).
  pose proof (blockAt_length _ _ _ _ (Hall n ltac:(lia)) (length_fmap _ _) Hpos).
  simpl. lia.
Qed.

Lemma validateBundle_counts_witness :
  exists n,
    validateBundle
      (Some <$> [mkEntry MOSAIC_ADDRESS_RESTRICTION true; mkEntry TRANSFER true])
      (typed <$> [MOSAIC_ADDRESS_RESTRICTION; TRANSFER;
                  MOSAIC_ADDRESS_RESTRICTION; TRANSFER; TRANSFER]) = Return n /\
    n * 2 <= 5 /\
    (forall j, j < n ->
       blockAt 2 (j * 2)
         (typed <$> [MOSAIC_ADDRESS_RESTRICTION; TRANSFER;
                     MOSAIC_ADDRESS_RESTRICTION; TRANSFER; TRANSFER])
       = [MOSAIC_ADDRESS_RESTRICTION; TRANSFER]) /\
    blockAt 2 (n * 2)
      (typed <$> [MOSAIC_ADDRESS_RESTRICTION; TRANSFER;
                  MOSAIC_ADDRESS_RESTRICTION; TRANSFER; TRANSFER])
    <> [MOSAIC_ADDRESS_RESTRICTION; TRANSFER].
Proof.
  assert ([mkEntry MOSAIC_ADDRESS_RESTRICTION true; mkEntry TRANSFER true] <> [])
    as Hne by discriminate.
  exact (proj2 (validateBundle_counts
           [mkEntry MOSAIC_ADDRESS_RESTRICTION true; mkEntry TRANSFER true]
           (typed <$> [MOSAIC_ADDRESS_RESTRICTION; TRANSFER;
                       MOSAIC_ADDRESS_RESTRICTION; TRANSFER; TRANSFER])) Hne).
Defined.

Example bundle_count_example :
  validateBundle
    (Some <$> [mkEntry MOSAIC_ADDRESS_RESTRICTION true; mkEntry TRANSFER true])
    (typed <$> [MOSAIC_ADDRESS_RESTRICTION; TRANSFER;
                MOSAIC_ADDRESS_RESTRICTION; TRANSFER; TRANSFER]) = Return 2.
Proof. vm_compute. reflexivity. Qed.

(** ** Grammars without repeatable rule *)

Lemma size_map_seq_0 {A : Type} (xs : list A) :
  size (map_seq 0 xs : gmap nat A) = length xs.
Proof.
  rewrite <- length_map_to_list, map_to_list_seq, length_zip, length_seq. lia.
Qed.

Section PlainGrammar.
Context (nm : string) (entries : list TaxonomyMapEntry) (sem : SemanticsMap).
Context (txs : list Transaction).
Hypothesis no_repeat : forall k e r,
  entries !! k = Some e -> required e = true -> sem !! k = Some r ->
  repeatable r = false.

Let t : Taxonomy := newTaxonomy nm (map_seq 0 entries) sem.

Lemma walkBody_plain_required k s e :
  entries !! k = Some e -> required e = true ->
  walkBody t txs {| i := k; skip := s; bundled := 0 |}
  = requiredEntry txs {| i := k; skip := s; bundled := 0 |} e.
Proof.
  intros Hk Hreq. unfold walkBody. cbn [i sequence semantics t newTaxonomy].
  rewrite lookup_map_seq_0, Hk, Hreq. cbn [negb].
  destruct (sem !! k) as [r|] eqn:Hr; [|done].
  by rewrite (no_repeat _ _ _ Hk Hreq Hr).
Qed.

Lemma walkLoop_plain fuel k s :
  s <= k -> k <= length entries -> length entries <= fuel + k ->
  walkLoop fuel t txs (length entries) {| i := k; skip := s; bundled := 0 |}
  = Return (plainWalk (drop k entries) (drop (k - s) txs)).
Proof.
  revert k s. induction fuel as [|fuel IH]; intros k s Hs Hk Hfuel.
  - assert (k = length entries) as -> by lia.
    cbn [walkLoop i]. rewrite Nat.leb_refl, drop_all. done.
  - cbn [walkLoop i]. destruct (length entries <=? k) eqn:Hle.
    { apply Nat.leb_le in Hle. rewrite drop_ge by lia. done. }
    apply Nat.leb_gt in Hle.
    destruct (lookup_lt_is_Some_2 entries k Hle) as [e He].
    rewrite (drop_S _ _ _ He). cbn [plainWalk].
    destruct (required e) eqn:Hreq.
    + rewrite (walkBody_plain_required _ _ _ He Hreq).
      unfold requiredEntry, cursorOf. cbn [i skip bundled]. rewrite Nat.add_0_r.
      destruct (txs !! (k - s)) as [tx|] eqn:Htx.
      * rewrite (drop_S _ _ _ Htx).
        destruct (type e =? txType tx)%N; cbn [negb andb]; [|done].
        rewrite IH by lia. do 3 f_equal. lia.
      * by rewrite (drop_ge txs (k - s)) by (by apply lookup_ge_None).
    + unfold walkBody. cbn [i sequence t newTaxonomy].
      rewrite lookup_map_seq_0, He, Hreq. cbn [negb].
      unfold optionalEntry, cursorOf. cbn [i skip bundled]. rewrite Nat.add_0_r.
      destruct (txs !! (k - s)) as [tx|] eqn:Htx.
      * rewrite (drop_S _ _ _ Htx).
        destruct (txType tx =? type e)%N; cbn [negb].
        -- rewrite IH by lia. do 3 f_equal. lia.
        -- rewrite IH by lia. by rewrite Nat.sub_succ, (drop_S _ _ _ Htx).
      * rewrite IH by lia. rewrite Nat.sub_succ.
        by rewrite (drop_ge txs (k - s)) by (by apply lookup_ge_None).
Qed.

Lemma validate_as_plainWalk :
  validate t (contractOf txs)
  = Return (bool_decide (txs <> [])
            && forallb (fun tx => acceptsType t (Some (txType tx))) txs
            && plainWalk entries txs).
Proof.
  unfold validate. cbn [innerTransactions contractOf].
  destruct txs as [|tx0 txs'] eqn:Htxs; [done|]. rewrite <- Htxs.
  assert ((length txs =? 0) = false) as -> by (by rewrite Htxs).
  rewrite bool_decide_eq_true_2 by (by rewrite Htxs). cbn [andb].
  destruct (length (registeredTypes t) =? 0) eqn:Hreg.
  { apply Nat.eqb_eq in Hreg. unfold acceptsType at 1.
    rewrite Htxs. cbn [forallb]. rewrite Hreg. by rewrite andb_false_r. }
  destruct (forallb _ txs); cbn [negb andb]; [|done].
  cbn [sequence t newTaxonomy]. rewrite size_map_seq_0.
  unfold walkStart. rewrite walkLoop_plain by lia. by rewrite drop_0.
Qed.

End PlainGrammar.

Lemma plainWalk_required (entries : list TaxonomyMapEntry) (txs : list Transaction) :
  Forall (fun e => required e = true) entries ->
  plainWalk entries txs
  = bool_decide (blockAt (length entries) 0 txs = type <$> entries).
Proof.
  intros Hall. revert txs.
  induction Hall as [|e rest He _ IH]; intros txs; [done|].
  cbn [plainWalk length]. rewrite He.
  destruct txs as [|tx txs'].
  - by rewrite bool_decide_eq_false_2.
  - rewrite IH. unfold blockAt. cbn.
    destruct (type e =? txType tx)%N eqn:Hty; cbn [andb].
    + apply N.eqb_eq in Hty. apply bool_decide_ext. rewrite Hty, drop_0.
      split; [by intros ->|by intros [= ->]].
    + apply N.eqb_neq in Hty. rewrite bool_decide_eq_false_2; [done|].
      intros [= Heq _]. congruence.
Qed.

Lemma plainWalk_optional (entries : list TaxonomyMapEntry) (txs : list Transaction) :
  Forall (fun e => required e = false) entries -> plainWalk entries txs = true.
Proof.
  intros Hall. revert txs.
  induction Hall as [|e rest He _ IH]; intros txs; [done|].
  cbn [plainWalk]. rewrite He. destruct txs as [|tx txs']; [done|].
  by destruct (txType tx =? type e)%N.
Qed.

(** X5. On a grammar whose entries sit at the positions 0, 1, 2, ... and
    whose required entries have no repeatable rule, [validate] is the
    two guards, the
    type filter and a left-to-right match of the entries: required
    entries consume one operation of their type, optional entries are
    passed over when the next operation is of another type, and
    operations left at the end are not examined. It never throws. *)
Theorem validate_plain (nm : string) (entries : list TaxonomyMapEntry)
    (sem : SemanticsMap) (txs : list Transaction) :
  (forall k e r,
     entries !! k = Some e -> required e = true -> sem !! k = Some r ->
     repeatable r = false) ->
  validate (newTaxonomy nm (map_seq 0 entries) sem) (contractOf txs)
  = Return (bool_decide (txs <> [])
            && forallb (fun tx =>
                 acceptsType (newTaxonomy nm (map_seq 0 entries) sem)
                   (Some (txType tx))) txs
            && plainWalk entries txs).
Proof. apply validate_as_plainWalk. Qed.

Lemma validate_plain_witness :
  validate commitGrammar
    (contractOf [typed SECRET_PROOF; typed TRANSFER; typed TRANSFER; typed SECRET_PROOF])
  = Return true.
Proof.
  assert (forall k e r,
            [mkEntry SECRET_PROOF true; mkEntry TRANSFER true; mkEntry TRANSFER true] !! k
            = Some e ->
            required e = true -> (∅ : SemanticsMap) !! k = Some r ->
            repeatable r = false) as Hrules.
  { intros k e r _ _ Hr. by rewrite lookup_empty in Hr. }
  exact (validate_plain "Governable.CommitAgreement"
           [mkEntry SECRET_PROOF true; mkEntry TRANSFER true; mkEntry TRANSFER true] ∅
           [typed SECRET_PROOF; typed TRANSFER; typed TRANSFER; typed SECRET_PROOF]
           Hrules).
Defined.

(** X6. On a grammar of required entries only, at the positions
    0, 1, 2, ... and without repeatable rule, [validate] returns true
    exactly for the non-empty candidates of accepted types whose first
    operations have the types of the entries in order. What follows
    them is not checked: an accepted candidate stays accepted when
    operations of accepted types are appended. *)
Theorem validate_required_only (nm : string) (entries : list TaxonomyMapEntry)
    (sem : SemanticsMap) (txs : list Transaction) :
  (forall k r, sem !! k = Some r -> repeatable r = false) ->
  Forall (fun e => required e = true) entries ->
  let t := newTaxonomy nm (map_seq 0 entries) sem in
  (validate t (contractOf txs) = Return true <->
   txs <> [] /\
   Forall (fun tx => acceptsType t (Some (txType tx)) = true) txs /\
   blockAt (length entries) 0 txs = type <$> entries) /\
  (forall extra,
     validate t (contractOf txs) = Return true ->
     Forall (fun tx => acceptsType t (Some (txType tx)) = true) extra ->
     validate t (contractOf (txs ++ extra)) = Return true).
Proof.
  intros Hrules Hreq t.
  assert (forall l, validate t (contractOf l) = Return true <->
            l <> [] /\
            Forall (fun tx => acceptsType t (Some (txType tx)) = true) l /\
            blockAt (length entries) 0 l = type <$> entries) as Hiff.
  { intros l. subst t. rewrite validate_as_plainWalk by eauto.
    rewrite plainWalk_required by done.
    split.
    - intros [= H].
      rewrite !andb_true_iff, !bool_decide_eq_true, forallb_forall in H.
      destruct H as [[? Hall] ?]. repeat split; try done.
      apply Forall_forall. intros tx Htx. by apply Hall, list_elem_of_In.
    - intros (Hne & Hall & Hblock). f_equal.
      rewrite !andb_true_iff, !bool_decide_eq_true, forallb_forall.
      repeat split; try done. intros tx Htx.
      rewrite Forall_forall in Hall. by apply Hall, list_elem_of_In. }
  split; [apply Hiff|].
  intros extra Hv Hextra. apply Hiff in Hv as (Hne & Hall & Hblock).
  apply Hiff. repeat split.
  - by destruct txs.
  - by apply Forall_app.
  - unfold blockAt in *. rewrite drop_0 in *. rewrite fmap_app, take_app_le; [done|].
    apply (f_equal length) in Hblock.
    rewrite length_take, !length_fmap in Hblock. rewrite length_fmap. lia.
Qed.

Lemma validate_required_only_witness :
  validate commitGrammar
    (contractOf ([typed SECRET_PROOF; typed TRANSFER; typed TRANSFER]
                 ++ [typed SECRET_PROOF; typed SECRET_PROOF])) = Return true.
Proof.
  assert (forall k r, (∅ : SemanticsMap) !! k = Some r -> repeatable r = false)
    as Hrules by (intros k r Hr; by rewrite lookup_empty in Hr).
  assert (Forall (fun e => required e = true)
            [mkEntry SECRET_PROOF true; mkEntry TRANSFER true; mkEntry TRANSFER true])
    as Hreq by (repeat constructor).
  apply (proj2 (validate_required_only "Governable.CommitAgreement"
                  [mkEntry SECRET_PROOF true; mkEntry TRANSFER true; mkEntry TRANSFER true]
                  ∅ [typed SECRET_PROOF; typed TRANSFER; typed TRANSFER] Hrules Hreq)).
  - vm_compute. reflexivity.
  - repeat constructor.
Defined.

(** X7. A grammar of optional entries only, at the positions
    0, 1, 2, ..., accepts every non-empty candidate made of accepted
    types, in any order and number, and rejects every other
    candidate. *)
Theorem validate_optional_only (nm : string) (entries : list TaxonomyMapEntry)
    (sem : SemanticsMap) (txs : list Transaction) :
  Forall (fun e => required e = false) entries ->
  validate (newTaxonomy nm (map_seq 0 entries) sem) (contractOf txs)
  = Return (bool_decide (txs <> [])
            && forallb (fun tx =>
                 acceptsType (newTaxonomy nm (map_seq 0 entries) sem)
                   (Some (txType tx))) txs).
Proof.
  intros Hopt. rewrite validate_as_plainWalk.
  - by rewrite plainWalk_optional, andb_true_r.
  - intros k e r He Hreq. rewrite Forall_lookup in Hopt.
    specialize (Hopt _ _ He). simpl in Hopt. congruence.
Qed.

Lemma validate_optional_only_witness :
  validate
    (newTaxonomy "optional"
       (map_seq 0 [mkEntry TRANSFER false; mkEntry SECRET_PROOF false]) ∅)
    (contractOf [typed SECRET_PROOF; typed SECRET_PROOF; typed TRANSFER; typed SECRET_PROOF])
  = Return true.
Proof.
  apply (validate_optional_only "optional"
           [mkEntry TRANSFER false; mkEntry SECRET_PROOF false] ∅
           [typed SECRET_PROOF; typed SECRET_PROOF; typed TRANSFER; typed SECRET_PROOF]).
  repeat constructor.
Defined.

(** ** Repeatable types *)

Lemma setAcceptsRepeat_repeatableTypes (t : Taxonomy) (ty x : TransactionType) :
  (NoDup (repeatableTypes t) -> NoDup (repeatableTypes (setAcceptsRepeat t ty))) /\
  (x ∈ repeatableTypes (setAcceptsRepeat t ty) <->
   x ∈ repeatableTypes t \/ (x = ty /\ ty ∈ registeredTypes t)).
Proof.
  unfold setAcceptsRepeat, includes.
  destruct (decide (ty ∈ registeredTypes t)) as [Hreg|Hreg].
  - rewrite (bool_decide_eq_true_2 _ Hreg). cbn [negb].
    destruct (decide (ty ∈ repeatableTypes t)) as [Hrep|Hrep].
    + rewrite (bool_decide_eq_true_2 _ Hrep). cbn [negb].
      split; [done|]. split; [tauto|]. intros [?|[-> _]]; done.
    + rewrite (bool_decide_eq_false_2 _ Hrep). cbn [negb repeatableTypes].
      split.
      * intros Hnd. apply NoDup_app. repeat split; [done| |apply NoDup_singleton].
        intros y Hy ->%list_elem_of_singleton. done.
      * rewrite elem_of_app, list_elem_of_singleton. tauto.
  - rewrite (bool_decide_eq_false_2 _ Hreg). cbn [negb]. split; [done|]. tauto.
Qed.

Lemma foldl_setAcceptsRepeat_repeatableTypes (t : Taxonomy)
    (tys : list TransactionType) (x : TransactionType) :
  (NoDup (repeatableTypes t) ->
   NoDup (repeatableTypes (foldl setAcceptsRepeat t tys))) /\
  (x ∈ repeatableTypes (foldl setAcceptsRepeat t tys) <->
   x ∈ repeatableTypes t \/ (x ∈ tys /\ x ∈ registeredTypes t)).
Proof.
  revert t. induction tys as [|ty tys IH]; intros t; cbn [foldl].
  - split; [done|]. rewrite elem_of_nil. tauto.
  - destruct (IH (setAcceptsRepeat t ty)) as [Hnd Hin].
    destruct (setAcceptsRepeat_repeatableTypes t ty x) as [Hnd1 Hin1].
    destruct (setAcceptsRepeat_fields t ty) as (_ & _ & _ & Hreg).
    split; [tauto|]. rewrite Hin, Hin1, Hreg, elem_of_cons.
    split; [|intros [?|[[->|?] ?]]; tauto].
    intros [[?|[-> ?]]|[? ?]]; tauto.
Qed.

(** X8. After any sequence of [setAcceptsRepeat] calls on a freshly
    constructed taxonomy, the repeatable types are without duplicates
    and are exactly the given types that are registered; [acceptsRepeat]
    answers true for a type exactly when it is not 0, was given, and is
    the type of some entry of the sequence. *)
Theorem acceptsRepeat_after_marking (nm : string) (seq : TaxonomyMap)
    (sem : SemanticsMap) (tys : list TransactionType) (ty : TransactionType) :
  NoDup (repeatableTypes (foldl setAcceptsRepeat (newTaxonomy nm seq sem) tys)) /\
  (ty ∈ repeatableTypes (foldl setAcceptsRepeat (newTaxonomy nm seq sem) tys) <->
   ty ∈ tys /\ ty ∈ registeredTypes (newTaxonomy nm seq sem)) /\
  (acceptsRepeat (foldl setAcceptsRepeat (newTaxonomy nm seq sem) tys) (Some ty) = true
   <-> ty <> 0%N /\ ty ∈ tys /\ exists k e, seq !! k = Some e /\ type e = ty).
Proof.
  destruct (foldl_setAcceptsRepeat_repeatableTypes (newTaxonomy nm seq sem) tys ty)
    as [Hnd Hin].
  assert (ty ∈ repeatableTypes (foldl setAcceptsRepeat (newTaxonomy nm seq sem) tys) <->
          ty ∈ tys /\ ty ∈ registeredTypes (newTaxonomy nm seq sem)) as Hin'.
  { rewrite Hin. cbn [repeatableTypes newTaxonomy]. rewrite elem_of_nil. tauto. }
  split; [apply Hnd; constructor|]. split; [done|].
  unfold acceptsRepeat, includes, truthy.
  rewrite !andb_true_iff, negb_true_iff, N.eqb_neq, Nat.ltb_lt, bool_decide_eq_true.
  rewrite Hin'. cbn [registeredTypes newTaxonomy]. rewrite elem_of_getTransactionTypes.
  split; [tauto|]. intros (Hty & Htys & Hseq). repeat split; try done.
  assert (ty ∈ repeatableTypes (foldl setAcceptsRepeat (newTaxonomy nm seq sem) tys))
    as Hrep.
  { apply Hin'. split; [done|]. by apply elem_of_getTransactionTypes. }
  destruct (repeatableTypes (foldl setAcceptsRepeat (newTaxonomy nm seq sem) tys));
    [by apply elem_of_nil in Hrep|simpl; lia].
Qed.

(** ** Inputs of the execution context *)

Section ContextProperties.
Import Contracts.

Lemma getInput_find (c : Context) (field : string) (d : Value) :
  getInput c field d
  = match List.find (fun opt => String.eqb (name opt) field) (default [] (argv c)) with
    | Some it => value it
    | None => d
    end.
Proof. unfold getInput. by destruct (argv c) as [[|opt opts]|]. Qed.

Lemma find_snoc {A : Type} (p : A -> bool) (l : list A) (x : A) :
  List.find p (l ++ [x])
  = match List.find p l with
    | Some y => Some y
    | None => if p x then Some x else None
    end.
Proof.
  induction l as [|y l IH]; simpl; [done|]. by destruct (p y).
Qed.

Lemma find_named_None (opts : list ContractOption) (field : string) :
  List.find (fun opt => String.eqb (name opt) field) opts = None <->
  forall opt, opt ∈ opts -> name opt <> field.
Proof.
  induction opts as [|o opts IH]; simpl.
  - split; [|done]. intros _ opt Hopt. by apply elem_of_nil in Hopt.
  - destruct (String.eqb_spec (name o) field) as [Heq|Hne].
    + split; [discriminate|]. intros H. exfalso. by apply (H o); [left|].
    + rewrite IH. split.
      * intros H opt [->|Hin]%elem_of_cons; auto.
      * intros H opt Hin. apply H. by right.
Qed.

(** X9. [setInput] appends: reading the field just set gives the new
    value only if the context had no option of that name, since the
    first option of a name wins; an option already present keeps
    shadowing the new one, and every other field reads as before. *)
Theorem getInput_setInput (c : Context) (field other : string) (v d : Value) :
  ((forall opt, opt ∈ default [] (argv c) -> name opt <> field) ->
     getInput (setInput c field v) field d = v) /\
  ((exists opt, opt ∈ default [] (argv c) /\ name opt = field) ->
     getInput (setInput c field v) field d = getInput c field d) /\
  (other <> field ->
     getInput (setInput c field v) other d = getInput c other d).
Proof.
  rewrite !getInput_find.
  change (default [] (argv (setInput c field v)))
    with (default [] (argv c) ++ [mkOption field v]).
  rewrite !find_snoc. cbn [name value]. split; [|split].
  - intros Hfresh. apply find_named_None in Hfresh. rewrite Hfresh.
    by rewrite String.eqb_refl.
  - intros (opt & Hin & Hname).
    destruct (List.find _ (default [] (argv c))) as [it|] eqn:Hfind; [done|].
    exfalso. by apply (proj1 (find_named_None _ _) Hfind opt).
  - intros Hne. destruct (List.find _ (default [] (argv c))); [done|].
    destruct (String.eqb_spec field other); [congruence|done].
Qed.

Lemma getInput_setInput_witness :
  getInput (setInput (Governable.getContext sampleOrganization sampleOperator
                        defaultParameters None) "target" (VAccount sampleTarget))
    "target" VNull = VAccount sampleTarget /\
  getInput (setInput (Governable.getContext sampleOrganization sampleOperator
                        defaultParameters (Some commitArgv)) "target" VUndefined)
    "target" VNull
  = getInput (Governable.getContext sampleOrganization sampleOperator
                defaultParameters (Some commitArgv)) "target" VNull.
Proof.
  split.
  - apply (proj1 (getInput_setInput
             (Governable.getContext sampleOrganization sampleOperator
                defaultParameters None) "target" "target" (VAccount sampleTarget) VNull)).
    intros opt Hopt. by apply elem_of_nil in Hopt.
  - apply (proj1 (proj2 (getInput_setInput
             (Governable.getContext sampleOrganization sampleOperator
                defaultParameters (Some commitArgv)) "target" "target" VUndefined VNull))).
    exists (mkOption "target" (VAccount sampleTarget)). split; [|reflexivity].
    apply list_elem_of_here.
Defined.

Lemma assertHasMandatoryArguments_characterized (c : Context)
    (argv : option (list ContractOption)) (fields : list string) :
  (assertHasMandatoryArguments c argv fields = Return true <->
   hasMandatoryArguments c fields) /\
  (forall pre f post,
     fields = pre ++ f :: post ->
     hasMandatoryArguments c pre ->
     getInput c f VNull = VNull ->
     assertHasMandatoryArguments c argv fields = Throw (FailureMissingArgument f)).
Proof.
  split.
  - split; [|apply assertHasMandatoryArguments_present].
    induction fields as [|f rest IH]; [constructor|].
    cbn [assertHasMandatoryArguments].
    destruct (getInput c f VNull) eqn:Hf; try discriminate;
      intros H; constructor; try congruence; by apply IH.
  - intros pre f post -> Hpre Hf.
    induction Hpre as [|g pre Hg _ IH]; cbn [app assertHasMandatoryArguments].
    + by rewrite Hf.
    + by destruct (getInput c g VNull).
Qed.

(** X10. [assertHasMandatoryArguments] returns true exactly when every
    field reads as something other than [null], and otherwise throws
    [FailureMissingArgument] for the first field, in the order of the
    list, that reads as [null]. *)
Theorem assertHasMandatoryArguments_first_missing (c : Context)
    (argv : option (list ContractOption)) (fields : list string) :
  (assertHasMandatoryArguments c argv fields = Return true <->
   hasMandatoryArguments c fields) /\
  (forall pre f post,
     fields = pre ++ f :: post ->
     hasMandatoryArguments c pre ->
     getInput c f VNull = VNull ->
     assertHasMandatoryArguments c argv fields = Throw (FailureMissingArgument f)).
Proof. apply assertHasMandatoryArguments_characterized. Qed.

Lemma assertHasMandatoryArguments_first_missing_witness :
  assertHasMandatoryArguments
    (Governable.getContext sampleOrganization sampleOperator defaultParameters
       (Some commitArgv))
    None CreateDAO_arguments
  = Throw (FailureMissingArgument "operators").
Proof.
  apply (proj2 (assertHasMandatoryArguments_first_missing
           (Governable.getContext sampleOrganization sampleOperator defaultParameters
              (Some commitArgv)) None CreateDAO_arguments)
           ["target"%string] "operators"%string ["metadata"%string]).
  - reflexivity.
  - repeat constructor. discriminate.
  - reflexivity.
Defined.

End ContextProperties.

(** ** Authorization across contracts *)

Section AuthorizationProperties.
Import Contracts.

Lemma canExecute_confirmed (ext : External)
    (org : Governable.DistributedOrganization) (actor : PublicAccount)
    (governAssetId : AssetIdentifier) (argv : list ContractOption)
    (confirmed : AggregateTransaction) :
  Governable.agreement org = Some confirmed ->
  let c := Governable.getContext org actor defaultParameters (Some argv) in
  (forall r, Governable.canExecute ext org actor governAssetId "CreateAgreement" argv
             = Return r -> status r = false) /\
  (forall r, Governable.canExecute ext org actor governAssetId "CommitAgreement" argv
             = Return r -> status r = false) /\
  (hasMandatoryArguments c CreateDAO_arguments ->
     forall a, getInput c "target" VBlankAccount = VAccount a ->
     Governable.canExecute ext org actor governAssetId "CreateDAO" argv
     = Return (allowance (equals (address a) (address (target_ governAssetId))))).
Proof.
  intros Hagr c.
  pose (inst := fun k => Governable.populate org (newExecutable k c governAssetId)).
  split; [|split].
  - intros r.
    change (CreateAgreement_canExecute (inst CreateAgreement) actor (Some argv)
            = Return r -> status r = false).
    unfold CreateAgreement_canExecute.
    cbn [inst context agreement Governable.populate newExecutable]. rewrite Hagr.
    destruct (assertHasMandatoryArguments _ _ _); [|discriminate].
    by intros [= <-].
  - intros r.
    change (CommitAgreement_canExecute (inst CommitAgreement) actor (Some argv)
            = Return r -> status r = false).
    unfold CommitAgreement_canExecute.
    cbn [inst context agreement Governable.populate newExecutable]. rewrite Hagr.
    destruct (assertHasMandatoryArguments _ _ _); [|discriminate].
    by intros [= <-].
  - intros H a Ha.
    change (CreateDAO_canExecute (inst CreateDAO) actor (Some argv)
            = Return (allowance (equals (address a) (address (target_ governAssetId))))).
    unfold CreateDAO_canExecute.
    cbn [inst context agreement target Governable.populate newExecutable].
    by rewrite (assertHasMandatoryArguments_present c (Some argv) _ H), Hagr, Ha.
Qed.

(** X11. Once an agreement is confirmed, [CreateAgreement] and
    [CommitAgreement] report status false to every actor, whatever the
    inputs; [CreateDAO], given its mandatory arguments, reports whether
    the account given as [target] input has the address of the
    organization's target account. *)
Theorem confirmed_agreement_authorizations (ext : External)
    (org : Governable.DistributedOrganization) (actor : PublicAccount)
    (governAssetId : AssetIdentifier) (argv : list ContractOption)
    (confirmed : AggregateTransaction) :
  Governable.agreement org = Some confirmed ->
  let c := Governable.getContext org actor defaultParameters (Some argv) in
  (forall r, Governable.canExecute ext org actor governAssetId "CreateAgreement" argv
             = Return r -> status r = false) /\
  (forall r, Governable.canExecute ext org actor governAssetId "CommitAgreement" argv
             = Return r -> status r = false) /\
  (hasMandatoryArguments c CreateDAO_arguments ->
     forall a, getInput c "target" VBlankAccount = VAccount a ->
     Governable.canExecute ext org actor governAssetId "CreateDAO" argv
     = Return (allowance (equals (address a) (address (target_ governAssetId))))).
Proof. apply canExecute_confirmed. Qed.

Lemma confirmed_agreement_authorizations_witness :
  (forall r, Governable.canExecute sampleExternal syncedOrganization sampleOperator
               sampleIdentifier "CommitAgreement" commitArgv = Return r ->
             status r = false) /\
  Governable.canExecute sampleExternal syncedOrganization sampleOperator
    sampleIdentifier "CreateDAO" daoArgv
  = Return (allowance (equals (address sampleTarget) (address (target_ sampleIdentifier)))).
Proof.
  split.
  - apply (confirmed_agreement_authorizations sampleExternal syncedOrganization
             sampleOperator sampleIdentifier commitArgv sampleAgreement).
    reflexivity.
  - apply (confirmed_agreement_authorizations sampleExternal syncedOrganization
             sampleOperator sampleIdentifier daoArgv sampleAgreement);
      [reflexivity| |reflexivity].
    repeat constructor; discriminate.
Defined.

(** X12. No state of the organization and no inputs authorize both
    [CreateDAO] and one of the two agreement contracts: whenever
    [CreateAgreement] or [CommitAgreement] reports status true,
    [CreateDAO] reports status false. *)
Theorem agreement_contracts_exclude_CreateDAO (ext : External)
    (org : Governable.DistributedOrganization) (actor : PublicAccount)
    (governAssetId : AssetIdentifier) (argv : list ContractOption)
    (command : string) (r r' : AllowanceResult) :
  command = "CreateAgreement"%string \/ command = "CommitAgreement"%string ->
  Governable.canExecute ext org actor governAssetId command argv = Return r ->
  status r = true ->
  Governable.canExecute ext org actor governAssetId "CreateDAO" argv = Return r' ->
  status r' = false.
Proof.
  intros Hcommand Hr Htrue.
  destruct (Governable.agreement org) as [confirmed|] eqn:Hagr.
  - exfalso.
    destruct (canExecute_confirmed ext org actor governAssetId argv
                confirmed Hagr) as (Hcreate & Hcommit & _).
    destruct Hcommand as [-> | ->].
    + apply Hcreate in Hr. congruence.
    + apply Hcommit in Hr. congruence.
  - clear Hr Htrue Hcommand.
    pose (c := Governable.getContext org actor defaultParameters (Some argv)).
    change (CreateDAO_canExecute
              (Governable.populate org (newExecutable CreateDAO c governAssetId))
              actor (Some argv) = Return r' -> status r' = false).
    unfold CreateDAO_canExecute.
    cbn [context agreement Governable.populate newExecutable]. rewrite Hagr.
    destruct (assertHasMandatoryArguments _ _ _); [|discriminate].
    by intros [= <-].
Qed.

Lemma agreement_contracts_exclude_CreateDAO_witness : status (allowance false) = false.
Proof.
  apply (agreement_contracts_exclude_CreateDAO sampleExternal sampleOrganization
           sampleOperator sampleIdentifier
           (daoArgv ++ commitArgv) "CommitAgreement" (allowance true) (allowance false)).
  - right. reflexivity.
  - reflexivity.
  - reflexivity.
  - reflexivity.
Defined.

(** X13. When a mandatory argument of a contract's class is missing,
    [canExecute] and [execute] both throw [FailureMissingArgument] for
    the first missing field; the authorization policy and the
    transaction list are not consulted, whatever they are. *)
Theorem execute_missing_argument (ext : External) (e : Executable)
    (actor : PublicAccount) (argv : option (list ContractOption))
    (fields pre post : list string) (f : string) :
  classArguments (kind e) fields ->
  fields = pre ++ f :: post ->
  hasMandatoryArguments (context e) pre ->
  getInput (context e) f VNull = VNull ->
  canExecute ext e actor argv = Throw (FailureMissingArgument f) /\
  execute ext e actor argv = Throw (FailureMissingArgument f).
Proof.
  intros Hclass Hfields Hpre Hf.
  pose proof (proj2 (assertHasMandatoryArguments_characterized (context e) argv fields)
                pre f post Hfields Hpre Hf) as Hassert.
  assert (canExecute ext e actor argv = Throw (FailureMissingArgument f)) as Hcan.
  { unfold canExecute. inversion Hclass as [Hk Hfs|Hk Hfs|Hk Hfs|Hk Hfs];
      rewrite <- Hfs in Hassert;
      unfold CreateAgreement_canExecute, CommitAgreement_canExecute,
        CreateDAO_canExecute, CreateVote_canExecute;
      by rewrite Hassert. }
  split; [done|].
  unfold execute, assertExecutionAllowance. by rewrite Hcan.
Qed.

Lemma execute_missing_argument_witness :
  canExecute sampleExternal (instanceOf sampleOrganization CreateDAO commitArgv)
    sampleOperator None = Throw (FailureMissingArgument "operators") /\
  execute sampleExternal (instanceOf sampleOrganization CreateDAO commitArgv)
    sampleOperator None = Throw (FailureMissingArgument "operators").
Proof.
  apply (execute_missing_argument sampleExternal
           (instanceOf sampleOrganization CreateDAO commitArgv) sampleOperator None
           CreateDAO_arguments ["target"%string] ["metadata"%string] "operators"%string).
  - constructor.
  - reflexivity.
  - repeat constructor. discriminate.
  - reflexivity.
Defined.

End AuthorizationProperties.

(** ** The orchestrator *)

Section OrchestratorProperties.
Import Contracts.

Lemma assertHasMandatoryArguments_inputs (c1 c2 : Context)
    (argv1 argv2 : option (list ContractOption)) (fields : list string) :
  argv c1 = argv c2 ->
  assertHasMandatoryArguments c1 argv1 fields
  = assertHasMandatoryArguments c2 argv2 fields.
Proof.
  intros Hargv. induction fields as [|f rest IH]; [done|].
  cbn [assertHasMandatoryArguments]. unfold getInput. rewrite Hargv, IH. done.
Qed.

(** The policies of the four contracts read the inputs of the context
    and the synchronized data; the transaction parameters play no
    part. *)
Lemma canExecute_parameters (ext : External) (org : Governable.DistributedOrganization)
    (actor : PublicAccount) (governAssetId : AssetIdentifier) (k : ContractKind)
    (p1 p2 : TransactionParameters) (argv : list ContractOption) :
  k <> Vote ->
  canExecute ext
    (Governable.populate org
       (newExecutable k (Governable.getContext org actor p1 (Some argv)) governAssetId))
    actor (Some argv)
  = canExecute ext
      (Governable.populate org
         (newExecutable k (Governable.getContext org actor p2 (Some argv)) governAssetId))
      actor (Some argv).
Proof.
  intros Hk. unfold canExecute.
  destruct k; try done; cbn [kind Governable.populate newExecutable];
    unfold CreateAgreement_canExecute, CommitAgreement_canExecute,
      CreateDAO_canExecute, CreateVote_canExecute;
    cbn [context agreement target Governable.populate newExecutable];
    rewrite (assertHasMandatoryArguments_inputs
               (Governable.getContext org actor p1 (Some argv))
               (Governable.getContext org actor p2 (Some argv))
               (Some argv) (Some argv)) by done;
    done.
Qed.

(** X14. The authorization answer of the organization predicts what
    [executeOffline] does with the same contract and inputs, whatever
    the transaction parameters: a negative status becomes
    [FailureOperationForbidden], a failure of the check is the failure
    of the execution, and a transaction URI is returned only if the
    check reports status true. *)
Theorem canExecute_predicts_executeOffline (ext : External)
    (org : Governable.DistributedOrganization) (actor : PublicAccount)
    (governAssetId : AssetIdentifier) (command : string) (k : ContractKind)
    (parameters : TransactionParameters) (argv : list ContractOption) :
  Governable.lookupContract command = Some (Governable.ContractFn k) ->
  k <> Vote ->
  (forall r, Governable.canExecute ext org actor governAssetId command argv = Return r ->
             status r = false ->
             Governable.executeOffline ext org actor governAssetId command parameters argv
             = Throw FailureOperationForbidden) /\
  (forall f, Governable.canExecute ext org actor governAssetId command argv = Throw f ->
             Governable.executeOffline ext org actor governAssetId command parameters argv
             = Throw f) /\
  (forall uri,
     Governable.executeOffline ext org actor governAssetId command parameters argv
     = Return uri ->
     exists r, Governable.canExecute ext org actor governAssetId command argv = Return r /\
               status r = true).
Proof.
  intros Hlookup Hk.
  unfold Governable.canExecute, Governable.executeOffline, Governable.getContract.
  rewrite Hlookup. cbn [bind].
  rewrite (canExecute_parameters ext org actor governAssetId k
             defaultParameters parameters argv Hk).
  unfold execute, assertExecutionAllowance.
  destruct (canExecute ext _ actor (Some argv)) as [r|f]; cbn [bind].
  - split; [|split].
    + intros r' [= <-] Hr. by rewrite Hr.
    + discriminate.
    + intros uri. destruct (status r) eqn:Hr; [eauto|discriminate].
  - split; [|split]; try discriminate. by intros f' [= <-].
Qed.

Lemma canExecute_predicts_executeOffline_witness :
  Governable.executeOffline sampleExternal sampleOrganization sampleOperator
    sampleIdentifier "CreateDAO" defaultParameters daoArgv
  = Throw FailureOperationForbidden.
Proof.
  apply (proj1 (canExecute_predicts_executeOffline sampleExternal sampleOrganization
                  sampleOperator sampleIdentifier "CreateDAO" CreateDAO
                  defaultParameters daoArgv ltac:(reflexivity) ltac:(discriminate))
           (allowance false)).
  - reflexivity.
  - reflexivity.
Defined.

(** X15. [execute] and [executeOffline] are written out separately in
    the source. The two bodies agree: [execute] changes the
    organization through [synchronize] only, a failed synchronization
    is its failure, and otherwise it gives what [executeOffline] gives
    on the synchronized organization; without agreement hash it leaves
    the organization as it is and coincides with [executeOffline],
    whatever the network answers. *)
Theorem execute_synchronizes_first (ext : External) (net : Governable.Network)
    (org : Governable.DistributedOrganization) (actor : PublicAccount)
    (governAssetId : AssetIdentifier) (command : string)
    (parameters : TransactionParameters) (argv : list ContractOption) :
  (Governable.execute ext net org actor governAssetId command parameters argv).1
  = (Governable.synchronize net org).1 /\
  (forall b, (Governable.synchronize net org).2 = Return b ->
     (Governable.execute ext net org actor governAssetId command parameters argv).2
     = Governable.executeOffline ext (Governable.synchronize net org).1 actor
         governAssetId command parameters argv) /\
  (forall f, (Governable.synchronize net org).2 = Throw f ->
     (Governable.execute ext net org actor governAssetId command parameters argv).2
     = Throw f) /\
  (Governable.agreementHash org = None \/ Governable.agreementHash org = Some ""%string ->
   Governable.execute ext net org actor governAssetId command parameters argv
   = (org, Governable.executeOffline ext org actor governAssetId command parameters argv)).
Proof.
  unfold Governable.execute.
  split; [|split; [|split]].
  - by destruct (Governable.synchronize net org) as [org' [b|f]].
  - intros b. destruct (Governable.synchronize net org) as [org' r].
    cbn [fst snd]. by intros ->.
  - intros f. destruct (Governable.synchronize net org) as [org' r].
    cbn [fst snd]. by intros ->.
  - unfold Governable.synchronize. by intros [-> | ->].
Qed.

Lemma execute_synchronizes_first_witness :
  Governable.execute sampleExternal failingNetwork sampleOrganization sampleOperator
    sampleIdentifier "CommitAgreement" defaultParameters commitArgv
  = (sampleOrganization,
     Governable.executeOffline sampleExternal sampleOrganization sampleOperator
       sampleIdentifier "CommitAgreement" defaultParameters commitArgv).
Proof.
  apply (execute_synchronizes_first sampleExternal failingNetwork sampleOrganization
           sampleOperator sampleIdentifier "CommitAgreement" defaultParameters commitArgv).
  left. reflexivity.
Defined.

(** X16. When the agreement read from the network fails the
    authenticity check, [synchronize] throws [FailureInvalidAgreement]
    after having stored that agreement: the organization keeps the
    rejected transaction as its agreement, its other fields unchanged,
    and from then on refuses [CreateAgreement] to everyone. *)
Theorem synchronize_keeps_rejected_agreement (ext : External)
    (net : Governable.Network) (org : Governable.DistributedOrganization)
    (hash : string) (tx : AggregateTransaction) :
  Governable.agreementHash org = Some hash ->
  hash <> ""%string ->
  Governable.readTransactionFromNetwork net hash = Return (Some tx) ->
  Governable.verifyAuthenticity
    (Governable.getContext org (Governable.target org) defaultParameters None)
    (Governable.identifier org) (Some tx) = Return false ->
  (Governable.synchronize net org).2 = Throw FailureInvalidAgreement /\
  Governable.agreement (Governable.synchronize net org).1 = Some tx /\
  Governable.mosaicInfo (Governable.synchronize net org).1 = Governable.mosaicInfo org /\
  Governable.operators (Governable.synchronize net org).1 = Governable.operators org /\
  Governable.metadata (Governable.synchronize net org).1 = Governable.metadata org /\
  (forall actor governAssetId argv r,
     Governable.canExecute ext (Governable.synchronize net org).1 actor governAssetId
       "CreateAgreement" argv = Return r ->
     status r = false).
Proof.
  intros Hhash Hne Hread Hverify.
  assert (Governable.synchronize net org
          = (Governable.withAgreement org (Some tx), Throw FailureInvalidAgreement)) as ->.
  { unfold Governable.synchronize. rewrite Hhash.
    assert ((String.length hash =? 0) = false) as ->
      by (destruct hash; [done|reflexivity]).
    rewrite Hread.
    cbn [Governable.withAgreement Governable.identifier Governable.agreement].
    by rewrite Hverify. }
  cbn [fst snd]. repeat split.
  intros actor governAssetId argv r.
  by apply (canExecute_confirmed ext (Governable.withAgreement org (Some tx)) actor
              governAssetId argv tx).
Qed.

Lemma synchronize_keeps_rejected_agreement_witness :
  (Governable.synchronize forgingNetwork hashedOrganization).2
  = Throw FailureInvalidAgreement /\
  Governable.agreement (Governable.synchronize forgingNetwork hashedOrganization).1
  = Some forgedAgreement.
Proof.
  destruct (synchronize_keeps_rejected_agreement sampleExternal forgingNetwork
              hashedOrganization "5F7E0D6C1A9B" forgedAgreement)
    as (Hthrow & Hagreement & _).
  - reflexivity.
  - discriminate.
  - reflexivity.
  - vm_compute. reflexivity.
  - split; [exact Hthrow|exact Hagreement].
Defined.

(** What the three best-effort reads leave behind, field by field. *)
Lemma refresh_fields (net : Governable.Network)
    (org : Governable.DistributedOrganization) :
  Governable.refresh net org
  = Governable.mkOrganization (Governable.name org) (Governable.reader org)
      (Governable.signer org) (Governable.agreementHash org)
      (Governable.identifier org) (Governable.agreement org)
      (match Governable.readMosaicInfo net (Governable.identifier org) with
       | Return m => m
       | Throw _ => Governable.mosaicInfo org
       end)
      (match Governable.readOperators net (address (Governable.target org)) with
       | Return ops => ops
       | Throw _ => Governable.operators org
       end)
      (match Governable.readMetadataFromNetwork net (address (Governable.target org)) with
       | Return m => Some m
       | Throw _ => Governable.metadata org
       end).
Proof.
  destruct org as [nm rd sg hash idf agr mi ops md].
  unfold Governable.refresh, Governable.tryAssign, Governable.target. simpl.
  destruct (Governable.readMosaicInfo net idf) as [m|]; simpl;
    destruct (Governable.readOperators net (address (target_ idf))) as [o|]; simpl;
    destruct (Governable.readMetadataFromNetwork net (address (target_ idf)));
    reflexivity.
Qed.

Lemma refresh_idempotent (net : Governable.Network)
    (org : Governable.DistributedOrganization) :
  Governable.refresh net (Governable.refresh net org) = Governable.refresh net org.
Proof.
  rewrite (refresh_fields net (Governable.refresh net org)).
  rewrite (refresh_fields net org).
  unfold Governable.target.
  cbn [Governable.identifier Governable.name Governable.reader Governable.signer
       Governable.agreementHash Governable.agreement Governable.mosaicInfo
       Governable.operators Governable.metadata].
  f_equal.
  - by destruct (Governable.readMosaicInfo net _).
  - by destruct (Governable.readOperators net _).
  - by destruct (Governable.readMetadataFromNetwork net _).
Qed.

(** X17. For one and the same answers of the network [synchronize] is
    idempotent: synchronizing the organization it leaves behind gives
    the same organization and the same outcome again, also when reads
    fail. *)
Theorem synchronize_idempotent (net : Governable.Network)
    (org : Governable.DistributedOrganization) :
  Governable.synchronize net (Governable.synchronize net org).1
  = Governable.synchronize net org.
Proof.
  destruct org as [nm rd sg hash idf agr mi ops md].
  destruct hash as [hash|]; [|reflexivity].
  destruct (String.length hash =? 0) eqn:Hlen.
  { unfold Governable.synchronize. cbn [Governable.agreementHash].
    rewrite Hlen. cbn [fst Governable.agreementHash]. by rewrite Hlen. }
  destruct (Governable.readTransactionFromNetwork net hash) as [tx|f] eqn:Hread.
  2: { unfold Governable.synchronize. cbn [Governable.agreementHash].
       rewrite Hlen, Hread. cbn [fst Governable.agreementHash].
       by rewrite Hlen, Hread. }
  set (ctx := Governable.getContext
                (Governable.mkOrganization nm rd sg (Some hash) idf agr mi ops md)
                (target_ idf) defaultParameters None).
  assert (forall org1,
            Governable.agreementHash org1 = Some hash ->
            Governable.identifier org1 = idf ->
            Governable.reader org1 = rd ->
            Governable.signer org1 = sg ->
            Governable.synchronize net org1
            = match Governable.verifyAuthenticity ctx idf tx with
              | Throw f => (Governable.withAgreement org1 tx, Throw f)
              | Return false =>
                  (Governable.withAgreement org1 tx, Throw FailureInvalidAgreement)
              | Return true =>
                  (Governable.refresh net (Governable.withAgreement org1 tx), Return true)
              end) as Hsync.
  { intros [nm1 rd1 sg1 hash1 idf1 agr1 mi1 ops1 md1].
    cbn [Governable.agreementHash Governable.identifier Governable.reader
         Governable.signer].
    intros -> -> -> ->. unfold Governable.synchronize.
    cbn [Governable.agreementHash]. rewrite Hlen, Hread. reflexivity. }
  rewrite (Hsync (Governable.mkOrganization nm rd sg (Some hash) idf agr mi ops md))
    by reflexivity.
  destruct (Governable.verifyAuthenticity ctx idf tx) as [[|]|f]; cbn [fst].
  - rewrite Hsync by (by rewrite refresh_fields).
    f_equal.
    replace (Governable.withAgreement (Governable.refresh net _) tx)
      with (Governable.refresh net
              (Governable.withAgreement
                 (Governable.mkOrganization nm rd sg (Some hash) idf agr mi ops md) tx))
      by (by rewrite refresh_fields).
    apply refresh_idempotent.
  - by rewrite Hsync.
  - by rewrite Hsync.
Qed.

End OrchestratorProperties.

(** ** The operator set read from the multi-signature graph *)

Section MultisigProperties.
Import Contracts.

Lemma foldl_keep_last {A : Type} (x : A) (l : list A) :
  foldl (fun _ it => it) x l = default x (last l).
Proof.
  revert x. induction l as [|y l IH]; intros x; [done|].
  cbn [foldl]. rewrite IH, last_cons. by destruct (last l).
Qed.

Lemma reduce_keep_last {A : Type} (l : list A) :
  Governable.reduce (fun _ it => it) l
  = match last l with Some x => Return x | None => Throw TypeError end.
Proof.
  destruct l as [|x l]; [done|]. cbn [Governable.reduce].
  rewrite foldl_keep_last, last_cons. by destruct (last l).
Qed.

Lemma foldl_app_concat {A : Type} (x : list A) (l : list (list A)) :
  foldl (fun prev it => prev ++ it) x l = x ++ concat l.
Proof.
  revert x. induction l as [|y l IH]; intros x; cbn [foldl concat].
  - by rewrite app_nil_r.
  - by rewrite IH, app_assoc.
Qed.

(** The last element that passes a filter, along a list of keys in
    descending order, belongs to the least key that passes. *)
Lemma last_filter_descending {A : Type} (f : Z -> A) (p : A -> bool) (keys : list Z) :
  StronglySorted (flip Z.le) keys ->
  match last (List.filter p (f <$> keys)) with
  | Some x => exists k, k ∈ keys /\ f k = x /\ p x = true /\
                        forall k', k' ∈ keys -> p (f k') = true -> (k <= k')%Z
  | None => forall k, k ∈ keys -> p (f k) = false
  end.
Proof.
  induction 1 as [|k0 ks Hsorted IH Hall].
  - cbn. intros k Hk. by apply elem_of_nil in Hk.
  - cbn [fmap list_fmap List.filter].
    rewrite Forall_forall in Hall. unfold flip in Hall.
    destruct (last (List.filter p (f <$> ks))) as [x|] eqn:Hlast.
    + destruct IH as (k & Hk & Hfk & Hpx & Hleast).
      assert (last (if p (f k0) then f k0 :: List.filter p (f <$> ks)
                    else List.filter p (f <$> ks)) = Some x) as ->.
      { destruct (p (f k0)); [|done].
        destruct (List.filter p (f <$> ks)); [done|]. by rewrite last_cons_cons. }
      exists k. repeat split; [by right|done|done|].
      intros k' [->|Hk']%elem_of_cons Hp; [|by apply Hleast].
      by apply Hall.
    + assert (List.filter p (f <$> ks) = []) as ->.
      { destruct (List.filter p (f <$> ks)) as [|y l] eqn:Hfilter; [done|].
        exfalso. clear -Hlast. revert y Hlast.
        induction l as [|z l IHl]; intros y; [done|].
        rewrite last_cons_cons. apply IHl. }
      destruct (p (f k0)) eqn:Hp0; cbn [last].
      * exists k0. repeat split; [by left|done|].
        intros k' [->|Hk']%elem_of_cons Hp; [lia|].
        rewrite (IH k' Hk') in Hp. discriminate.
      * intros k [->|Hk]%elem_of_cons; [done|by apply IH].
Qed.

Lemma getMultisigAccountInfoFromGraph_level (graph : Governable.MultisigAccountGraphInfo) :
  match Governable.getMultisigAccountInfoFromGraph graph with
  | Return infos =>
      infos <> [] /\
      exists k, Governable.multisigEntries graph !! k = Some infos /\
                forall k' l, Governable.multisigEntries graph !! k' = Some l ->
                             l <> [] -> (k <= k')%Z
  | Throw f =>
      f = TypeError /\
      forall k l, Governable.multisigEntries graph !! k = Some l -> l = []
  end.
Proof.
  unfold Governable.getMultisigAccountInfoFromGraph. rewrite reduce_keep_last.
  set (m := Governable.multisigEntries graph).
  set (keys := merge_sort (flip Z.le) (map_to_list m).*1).
  assert (forall k, k ∈ keys <-> is_Some (m !! k)) as Hkeys.
  { intros k. unfold keys. rewrite merge_sort_Permutation.
    rewrite list_elem_of_fmap. split.
    - intros ([k' l] & -> & Hin). apply elem_of_map_to_list in Hin. by exists l.
    - intros [l Hl]. exists (k, l). split; [done|]. by apply elem_of_map_to_list. }
  assert (StronglySorted (flip Z.le) keys) as Hsorted.
  { unfold keys. apply StronglySorted_merge_sort; [apply _|].
    intros x y. unfold flip. lia. }
  pose proof (last_filter_descending (fun key => default [] (m !! key))
                (fun x => 0 <? length x) keys Hsorted) as Hlast.
  cbv beta in Hlast.
  destruct (last (List.filter _ _)) as [infos|].
  - destruct Hlast as (k & Hk & Hfk & Hpos & Hleast).
    apply Nat.ltb_lt in Hpos.
    assert (infos <> []) as Hne by (intros ->; simpl in Hpos; lia).
    split; [done|]. exists k. split.
    + apply Hkeys in Hk as [l Hl]. rewrite Hl in Hfk. simpl in Hfk. by subst.
    + intros k' l Hl Hlne. apply Hleast.
      * apply Hkeys. by exists l.
      * rewrite Hl. simpl. apply Nat.ltb_lt. destruct l; [done|simpl; lia].
  - split; [done|]. intros k l Hl.
    assert (k ∈ keys) as Hk by (apply Hkeys; by exists l).
    apply Hlast in Hk. rewrite Hl in Hk. simpl in Hk.
    apply Nat.ltb_ge in Hk. destruct l; [done|simpl in Hk; lia].
Qed.

(** X18. [getMultisigAccountInfoFromGraph] does not flatten the graph:
    it returns the account information of one level only, the lowest
    level that is not empty, and throws a [TypeError] when every level
    is empty. *)
Theorem getMultisigAccountInfoFromGraph_lowest_level
    (graph : Governable.MultisigAccountGraphInfo) :
  (forall infos,
     Governable.getMultisigAccountInfoFromGraph graph = Return infos ->
     infos <> [] /\
     exists k, Governable.multisigEntries graph !! k = Some infos /\
               forall k' l, Governable.multisigEntries graph !! k' = Some l ->
                            l <> [] -> (k <= k')%Z) /\
  (forall f,
     Governable.getMultisigAccountInfoFromGraph graph = Throw f ->
     f = TypeError /\
     forall k l, Governable.multisigEntries graph !! k = Some l -> l = []).
Proof.
  pose proof (getMultisigAccountInfoFromGraph_level graph) as H.
  split.
  - intros infos Heq. by rewrite Heq in H.
  - intros f Heq. by rewrite Heq in H.
Qed.

Lemma getMultisigAccountInfoFromGraph_lowest_level_witness :
  [Governable.mkMultisigInfo [address sampleOperator; address sampleAgreementAccount]]
  <> [] /\
  exists k,
    Governable.multisigEntries sampleGraph !! k
    = Some [Governable.mkMultisigInfo [address sampleOperator;
                                       address sampleAgreementAccount]] /\
    forall k' l, Governable.multisigEntries sampleGraph !! k' = Some l ->
                 l <> [] -> (k <= k')%Z.
Proof.
  apply (proj1 (getMultisigAccountInfoFromGraph_lowest_level sampleGraph)).
  vm_compute. reflexivity.
Defined.

(** X19. Whenever the read of the operator set in [synchronize]
    succeeds, the graph was fetched and the operators are the
    cosignatory addresses of its lowest non-empty level, in order: the
    cosignatories of the other levels are not among the operators it
    assigns. *)
Theorem readOperators_lowest_level (net : Governable.Network) (target : Address)
    (ops : list Address) :
  Governable.readOperators net target = Return ops ->
  exists graph infos k,
    Governable.getMultisigAccountGraphInfo net target = Return (Governable.Emits graph) /\
    Governable.multisigEntries graph !! k = Some infos /\
    infos <> [] /\
    (forall k' l, Governable.multisigEntries graph !! k' = Some l ->
                  l <> [] -> (k <= k')%Z) /\
    ops = concat (Governable.cosignatoryAddresses <$> infos).
Proof.
  unfold Governable.readOperators.
  destruct (Governable.getMultisigAccountGraphInfo net target) as [[graph| |]|f];
    try discriminate.
  cbn [bind Governable.toPromise].
  pose proof (getMultisigAccountInfoFromGraph_level graph) as Hlevel.
  destruct (Governable.getMultisigAccountInfoFromGraph graph) as [infos|f];
    [|discriminate].
  cbn [bind]. destruct Hlevel as (Hne & k & Hk & Hleast).
  destruct infos as [|info infos]; [done|].
  cbn [fmap list_fmap Governable.reduce]. rewrite foldl_app_concat.
  intros [= <-]. exists graph, (info :: infos), k. by repeat split.
Qed.

Lemma readOperators_lowest_level_witness :
  exists graph infos k,
    Governable.getMultisigAccountGraphInfo servingNetwork (address sampleTarget)
    = Return (Governable.Emits graph) /\
    Governable.multisigEntries graph !! k = Some infos /\
    infos <> [] /\
    (forall k' l, Governable.multisigEntries graph !! k' = Some l ->
                  l <> [] -> (k <= k')%Z) /\
    [address sampleOperator; address sampleAgreementAccount]
    = concat (Governable.cosignatoryAddresses <$> infos).
Proof.
  apply (readOperators_lowest_level servingNetwork (address sampleTarget)
           [address sampleOperator; address sampleAgreementAccount]).
  vm_compute. reflexivity.
Defined.

End MultisigProperties.

(** ** Descriptors and the authenticity of agreements *)

Section DescriptorProperties.
Import Contracts.
Import Stdlib.Strings.Ascii.

Lemma append_cons (x : Ascii.ascii) (a b : string) :
  String x a +:+ b = String x (a +:+ b).
Proof. reflexivity. Qed.

Lemma append_assoc_string (a b c : string) : (a +:+ b) +:+ c = a +:+ (b +:+ c).
Proof.
  induction a as [|x a IH]; [reflexivity|]. by rewrite !append_cons, IH.
Qed.

Lemma charFree_app (ch : Ascii.ascii) (a b : string) :
  charFree ch a -> charFree ch b -> charFree ch (a +:+ b).
Proof.
  induction a as [|x a IH]; [intros _ H; exact H|].
  rewrite append_cons. cbn [charFree]. intros [? ?] ?. auto.
Qed.

Lemma pretty_N_char_charFree (y : N) :
  charFree ")" (String (pretty_N_char y) "").
Proof.
  cbn [charFree]. split; [|done]. destruct y as [|p]; [done|].
  unfold pretty_N_char. by repeat case_match.
Qed.

Lemma pretty_N_go_charFree (x : N) (s : string) :
  exists d, pretty_N_go x s = d +:+ s /\ charFree ")" d.
Proof.
  revert s. induction (N.lt_wf_0 x) as [x _ IH]; intros s.
  assert (x = 0 \/ 0 < x)%N as [->|Hpos] by lia.
  - exists ""%string. by rewrite pretty_N_go_0.
  - rewrite pretty_N_go_step by done.
    destruct (IH (x `div` 10)%N (N.div_lt x 10 Hpos eq_refl)
                (String (pretty_N_char (x `mod` 10)) s)) as (d & -> & Hd).
    exists (d +:+ String (pretty_N_char (x `mod` 10)) ""). split.
    + by rewrite append_assoc_string.
    + apply charFree_app; [done|]. apply pretty_N_char_charFree.
Qed.

Lemma pretty_nat_charFree (n : nat) : charFree ")" (pretty n).
Proof.
  unfold pretty, pretty_nat, pretty, pretty_N.
  case_decide; [cbn [charFree]; split; [discriminate|done]|].
  destruct (pretty_N_go_charFree (N.of_nat n) "") as (d & -> & Hd).
  apply charFree_app; [done|exact I].
Qed.

(** A string is cut in one way only at the first occurrence of a
    character. *)
Lemma charFree_split (ch : Ascii.ascii) (d1 d2 r1 r2 : string) :
  charFree ch d1 -> charFree ch d2 ->
  d1 +:+ String ch r1 = d2 +:+ String ch r2 -> d1 = d2 /\ r1 = r2.
Proof.
  revert d2. induction d1 as [|a d1 IH]; intros [|b d2];
    rewrite ?append_cons; cbn [charFree].
  - by intros _ _ [= ->].
  - intros _ [Hb _] [= <- _]. done.
  - intros [Ha _] _ [= -> _]. done.
  - intros [_ H1] [_ H2] [= <- Heq]. destruct (IH d2 H1 H2 Heq) as [-> ->]. done.
Qed.

Lemma descriptor_cut (r1 r2 : nat) (k1 k2 : string) :
  ("Governable(v" +:+ pretty r1 +:+ ")" +:+ k1)%string
  = ("Governable(v" +:+ pretty r2 +:+ ")" +:+ k2)%string ->
  r1 = r2 /\ k1 = k2.
Proof.
  intros Heq. rewrite !append_cons in Heq. injection Heq as Heq.
  change (pretty r1 +:+ String ")" k1 = pretty r2 +:+ String ")" k2) in Heq.
  apply charFree_split in Heq as [Hr Hk]; [|apply pretty_nat_charFree..].
  split; [|done]. by apply (inj pretty).
Qed.

(** X20. A descriptor determines the contract, the revision and the
    identifier it was made from: two instances of the contracts at hand
    have the same descriptor only if they are of the same class and
    their revision and identifier agree. *)
Theorem descriptor_unambiguous (e1 e2 : Executable) (s : string) :
  descriptor e1 = Some s ->
  descriptor e2 = Some s ->
  kind e1 = kind e2 /\
  revision (context e1) = revision (context e2) /\
  id (identifier e1) = id (identifier e2).
Proof.
  unfold descriptor. intros H1 H2.
  destruct (kind e1), (kind e2); try discriminate;
    apply (inj Some) in H1, H2; rewrite <- H2 in H1; clear H2;
    unfold CreateAgreement_descriptor, CommitAgreement_descriptor,
           CreateDAO_descriptor, CreateVote_descriptor in H1;
    apply descriptor_cut in H1 as [Hr Hk];
    rewrite ?append_cons in Hk; try discriminate;
    injection Hk as Hk; done.
Qed.

Lemma descriptor_unambiguous_witness :
  kind (instanceOf sampleOrganization CommitAgreement commitArgv)
  = kind (instanceOf syncedOrganization CommitAgreement []) /\
  revision (context (instanceOf sampleOrganization CommitAgreement commitArgv))
  = revision (context (instanceOf syncedOrganization CommitAgreement [])) /\
  id (identifier (instanceOf sampleOrganization CommitAgreement commitArgv))
  = id (identifier (instanceOf syncedOrganization CommitAgreement [])).
Proof.
  apply (descriptor_unambiguous
           (instanceOf sampleOrganization CommitAgreement commitArgv)
           (instanceOf syncedOrganization CommitAgreement [])
           (CommitAgreement_descriptor
              (instanceOf sampleOrganization CommitAgreement commitArgv))).
  - reflexivity.
  - reflexivity.
Defined.

(** When [verifyAuthenticity] answers true. *)
Lemma verifyAuthenticity_true (ctx : Context) (idf : AssetIdentifier)
    (a : option AggregateTransaction) :
  Governable.verifyAuthenticity ctx idf a = Return true <->
  exists tx s t x,
    a = Some tx /\
    aggregateType tx = AGGREGATE_BONDED /\
    transactionInfo tx = true /\
    innerTransactions tx = [s; t; x] /\
    proof s = Some (id idf) /\
    message t = Some (publicKey (target_ idf)) /\
    message x = Some (Governable.commitDescriptor ctx idf).
Proof.
  unfold Governable.verifyAuthenticity, Governable.payloadOf. split.
  - destruct a as [tx|]; [|discriminate].
    destruct (aggregateType tx =? AGGREGATE_BONDED)%N eqn:Hty; [|discriminate].
    apply N.eqb_eq in Hty. cbn [negb].
    destruct (innerTransactions tx) as [|s [|t [|x [|]]]] eqn:Hinner; try discriminate.
    destruct (transactionInfo tx) eqn:Hinfo; [|discriminate]. cbn [negb].
    case_bool_decide as Hproof; [|discriminate]. cbn [negb].
    destruct (message t) as [agreed|] eqn:Ht; [|discriminate]. cbn [bind].
    destruct (String.eqb agreed _) eqn:Hagreed; [|discriminate]. cbn [negb].
    apply String.eqb_eq in Hagreed as ->.
    destruct (message x) as [executed|] eqn:Hx; [|discriminate]. cbn [bind].
    intros [= Hexec]. apply String.eqb_eq in Hexec as ->.
    by exists tx, s, t, x.
  - intros (tx & s & t & x & -> & Hty & Hinfo & Hinner & Hproof & Ht & Hx).
    rewrite Hty, N.eqb_refl, Hinner, Hinfo. cbn [negb].
    rewrite bool_decide_eq_true_2 by done. cbn [negb].
    rewrite Ht. cbn [bind]. rewrite String.eqb_refl. cbn [negb].
    rewrite Hx. cbn [bind]. by rewrite String.eqb_refl.
Qed.

(** X21. An agreement transaction is authentic for one organization
    only: if [verifyAuthenticity] accepts the same transaction under
    two contexts and identifiers, then the revisions, the identifier
    strings and the public keys of the target accounts agree. *)
Theorem verifyAuthenticity_binds_identifier (ctx1 ctx2 : Context)
    (idf1 idf2 : AssetIdentifier) (a : option AggregateTransaction) :
  Governable.verifyAuthenticity ctx1 idf1 a = Return true ->
  Governable.verifyAuthenticity ctx2 idf2 a = Return true ->
  revision ctx1 = revision ctx2 /\
  id idf1 = id idf2 /\
  publicKey (target_ idf1) = publicKey (target_ idf2).
Proof.
  intros (tx & s & t & x & -> & _ & _ & Hinner & Hproof & Ht & Hx)%verifyAuthenticity_true
         (tx' & s' & t' & x' & [= <-] & _ & _ & Hinner' & Hproof' & Ht' & Hx')%verifyAuthenticity_true.
  rewrite Hinner in Hinner'. injection Hinner' as <- <- <-.
  rewrite Hproof in Hproof'. rewrite Ht in Ht'. rewrite Hx in Hx'.
  injection Hproof' as Hid. injection Ht' as Hkey. apply (inj Some) in Hx'.
  apply descriptor_cut in Hx' as [Hrev _]. done.
Qed.

Lemma verifyAuthenticity_binds_identifier_witness :
  revision (Governable.getContext syncedOrganization
              (Governable.target syncedOrganization) defaultParameters None)
  = revision (Governable.getContext sampleOrganization
                (Governable.target sampleOrganization) defaultParameters None) /\
  id sampleIdentifier = id sampleIdentifier /\
  publicKey (target_ sampleIdentifier) = publicKey (target_ sampleIdentifier).
Proof.
  apply (verifyAuthenticity_binds_identifier
           (Governable.getContext syncedOrganization
              (Governable.target syncedOrganization) defaultParameters None)
           (Governable.getContext sampleOrganization
              (Governable.target sampleOrganization) defaultParameters None)
           sampleIdentifier sampleIdentifier (Some sampleAgreement)).
  - vm_compute. reflexivity.
  - vm_compute. reflexivity.
Defined.

(** X22. The execution proof of an agreement [verifyAuthenticity]
    accepts is the descriptor of a [CommitAgreement] contract of the
    same revision and identifier: the transaction is a confirmed bonded
    aggregate of exactly three operations, and no instance of another
    contract at hand, and no [CommitAgreement] of another revision or
    identifier, has the message of the third as its descriptor. *)
Theorem verifyAuthenticity_execution_proof (ctx : Context) (idf : AssetIdentifier)
    (tx : AggregateTransaction) :
  Governable.verifyAuthenticity ctx idf (Some tx) = Return true ->
  aggregateType tx = AGGREGATE_BONDED /\
  transactionInfo tx = true /\
  exists s t x,
    innerTransactions tx = [s; t; x] /\
    forall e, descriptor e = message x ->
      kind e = CommitAgreement /\
      revision (context e) = revision ctx /\
      id (identifier e) = id idf.
Proof.
  intros (tx' & s & t & x & [= <-] & Hty & Hinfo & Hinner & _ & _ & Hx)%verifyAuthenticity_true.
  split; [done|]. split; [done|]. exists s, t, x. split; [done|].
  intros e He. rewrite Hx in He. unfold descriptor in He.
  unfold Governable.commitDescriptor in He.
  destruct (kind e); try discriminate; apply (inj Some) in He;
    unfold CreateAgreement_descriptor, CommitAgreement_descriptor,
           CreateDAO_descriptor, CreateVote_descriptor in He;
    apply descriptor_cut in He as [Hr Hk];
    rewrite ?append_cons in Hk; try discriminate;
    injection Hk as Hk; done.
Qed.

Lemma verifyAuthenticity_execution_proof_witness :
  aggregateType sampleAgreement = AGGREGATE_BONDED /\
  transactionInfo sampleAgreement = true /\
  exists s t x,
    innerTransactions sampleAgreement = [s; t; x] /\
    forall e, descriptor e = message x ->
      kind e = CommitAgreement /\
      revision (context e)
      = revision (Governable.getContext syncedOrganization
                    (Governable.target syncedOrganization) defaultParameters None) /\
      id (identifier e) = id sampleIdentifier.
Proof.
  apply (verifyAuthenticity_execution_proof
           (Governable.getContext syncedOrganization
              (Governable.target syncedOrganization) defaultParameters None)
           sampleIdentifier sampleAgreement).
  vm_compute. reflexivity.
Defined.

End DescriptorProperties.

(** ** The candidate is read through its types only *)

Section TypesOnly.
Context (txs1 txs2 : list Transaction).
Hypothesis same_types : txType <$> txs1 = txType <$> txs2.

Lemma lookup_types (k : nat) : txType <$> (txs1 !! k) = txType <$> (txs2 !! k).
Proof. rewrite <- !list_lookup_fmap. by rewrite same_types. Qed.

Lemma length_types : length txs1 = length txs2.
Proof.
  rewrite <- (length_fmap txType txs1), <- (length_fmap txType txs2).
  by rewrite same_types.
Qed.

Lemma bundleFor_types es pos isBundle :
  bundleFor es txs1 pos isBundle = bundleFor es txs2 pos isBundle.
Proof.
  revert pos isBundle. induction es as [|e rest IH]; intros pos isBundle; [done|].
  cbn [bundleFor]. pose proof (lookup_types pos) as Hk.
  destruct (txs1 !! pos) as [a|], (txs2 !! pos) as [c|]; try done.
  injection Hk as Hk. destruct e as [e|]; [|done]. rewrite Hk.
  destruct (negb (txType c =? type e)%N); [done|apply IH].
Qed.

Lemma bundleLoop_types fuel es isBundle cnt :
  bundleLoop fuel es txs1 isBundle cnt = bundleLoop fuel es txs2 isBundle cnt.
Proof.
  revert isBundle cnt. induction fuel as [|fuel IH]; intros isBundle cnt; [done|].
  cbn [bundleLoop]. rewrite bundleFor_types.
  destruct (bundleFor es txs2 _ isBundle) as [[|]|]; [apply IH|done|done].
Qed.

End TypesOnly.

Lemma validateBundle_types (es : list (option TaxonomyMapEntry))
    (txs1 txs2 : list Transaction) :
  txType <$> txs1 = txType <$> txs2 ->
  validateBundle es txs1 = validateBundle es txs2.
Proof.
  intros H. unfold validateBundle. rewrite (length_types _ _ H).
  by apply bundleLoop_types.
Qed.

Lemma walkBody_types (t : Taxonomy) (txs1 txs2 : list Transaction) (w : Walk) :
  txType <$> txs1 = txType <$> txs2 ->
  walkBody t txs1 w = walkBody t txs2 w.
Proof.
  intros H. pose proof (lookup_types _ _ H (cursorOf w)) as Hk.
  unfold walkBody. destruct (sequence t !! i w) as [entry|]; [|done].
  assert (optionalEntry txs1 w entry = optionalEntry txs2 w entry) as Hopt.
  { unfold optionalEntry.
    destruct (txs1 !! cursorOf w) as [a|], (txs2 !! cursorOf w) as [c|]; try done.
    injection Hk as Hk. by rewrite Hk. }
  assert (requiredEntry txs1 w entry = requiredEntry txs2 w entry) as Hreq.
  { unfold requiredEntry.
    destruct (txs1 !! cursorOf w) as [a|], (txs2 !! cursorOf w) as [c|]; try done.
    injection Hk as Hk. by rewrite Hk. }
  destruct (negb (required entry)); [done|].
  destruct (semantics t !! i w) as [rules|]; [|done].
  destruct (repeatable rules); [|done].
  unfold repeatableEntry.
  rewrite (validateBundle_types _ (drop (cursorOf w) txs1) (drop (cursorOf w) txs2));
    [done|].
  by rewrite !fmap_drop, H.
Qed.

Lemma walkLoop_types (fuel : nat) (t : Taxonomy) (txs1 txs2 : list Transaction)
    (max : nat) (w : Walk) :
  txType <$> txs1 = txType <$> txs2 ->
  walkLoop fuel t txs1 max w = walkLoop fuel t txs2 max w.
Proof.
  intros H. revert w. induction fuel as [|fuel IH]; intros w; [done|].
  cbn [walkLoop]. rewrite (walkBody_types t txs1 txs2 w H).
  destruct (max <=? i w); [done|].
  destruct (walkBody t txs2 w); [apply IH|done|done].
Qed.

Lemma forallb_types (g : TransactionType -> bool) (txs : list Transaction) :
  forallb (fun tx => g (txType tx)) txs = forallb g (txType <$> txs).
Proof. induction txs as [|tx txs IH]; [done|]. cbn. by rewrite IH. Qed.

Lemma fmap_txType_typed (l : list TransactionType) : txType <$> (typed <$> l) = l.
Proof. induction l as [|a l IH]; [done|]. cbn. by rewrite IH. Qed.

(** The candidate rebuilt from its types alone gets the same verdict. *)
Lemma validate_typed (t : Taxonomy) (c : AggregateTransaction) :
  validate t c
  = validate t (contractOf (typed <$> (txType <$> innerTransactions c))).
Proof.
  assert (txType <$> innerTransactions c
          = txType <$> (typed <$> (txType <$> innerTransactions c))) as H
    by (by rewrite fmap_txType_typed).
  unfold validate. cbn [innerTransactions contractOf].
  rewrite <- (length_types _ _ H).
  rewrite (forallb_types (fun ty => acceptsType t (Some ty)) (innerTransactions c)).
  rewrite (forallb_types (fun ty => acceptsType t (Some ty))
             (typed <$> (txType <$> innerTransactions c))).
  rewrite <- H. by rewrite (walkLoop_types _ t _ _ _ _ H).
Qed.

(** X23. [validate] reads nothing of the candidate but the types of
    its embedded operations, in order: two candidates with the same
    list of types get the same verdict, whatever the kind of the
    aggregate, its confirmation, and the proofs and messages of the
    operations. *)
Theorem validate_types_only (t : Taxonomy) (c1 c2 : AggregateTransaction) :
  txType <$> innerTransactions c1 = txType <$> innerTransactions c2 ->
  validate t c1 = validate t c2.
Proof.
  intros H. rewrite (validate_typed t c1), (validate_typed t c2). by rewrite H.
Qed.

Lemma validate_types_only_witness :
  validate commitGrammar sampleAgreement
  = validate commitGrammar
      (contractOf (typed <$> [SECRET_PROOF; TRANSFER; TRANSFER])).
Proof.
  apply (validate_types_only commitGrammar sampleAgreement
           (contractOf (typed <$> [SECRET_PROOF; TRANSFER; TRANSFER]))).
  reflexivity.
Defined.

(** ** When the validator cannot throw *)

Lemma validateBundle_returns (entries : list TaxonomyMapEntry)
    (txs : list Transaction) :
  entries <> [] -> exists n, validateBundle (Some <$> entries) txs = Return n.
Proof.
  intros Hne. unfold validateBundle.
  destruct (bundleLoop_counts entries txs (S (length txs)) 0 false Hne)
    as (n & Hn & _); [lia|lia|]. eauto.
Qed.

Section NeverThrows.
Context (t : Taxonomy).
Hypothesis contiguous : forall k, k < size (sequence t) -> is_Some (sequence t !! k).
Hypothesis bundles_inside : forall k r b,
  semantics t !! k = Some r -> repeatable r = true ->
  1 <= b < length (bundleWith r) -> is_Some (sequence t !! (k + b)).

Lemma bundleOf_entries (e : TaxonomyMapEntry) (r : SemanticRuleset) (k : nat) :
  semantics t !! k = Some r -> repeatable r = true ->
  exists entries, bundleOf t e r k = Some <$> entries /\ entries <> [].
Proof.
  intros Hr Hrep.
  exists (e :: ((fun b => default e (sequence t !! (k + b)))
                <$> seq 1 (length (bundleWith r) - 1))).
  split; [|done]. unfold bundleOf. cbn [fmap list_fmap]. f_equal.
  rewrite <- list_fmap_compose. apply list_fmap_ext.
  intros j b Hb. apply lookup_seq in Hb as [-> Hj]. cbn.
  destruct (bundles_inside k r (1 + j) Hr Hrep) as [e' He']; [lia|].
  cbn in He'. by rewrite He'.
Qed.

Lemma walkBody_never_raises (txs : list Transaction) (w : Walk) (f : Failure) :
  i w < size (sequence t) -> walkBody t txs w <> Raise f.
Proof.
  intros Hlt. unfold walkBody, optionalEntry, repeatableEntry, requiredEntry.
  destruct (contiguous _ Hlt) as [entry ->].
  destruct (negb (required entry)); [done|].
  destruct (semantics t !! i w) as [rules|] eqn:Hrules.
  - destruct (repeatable rules) eqn:Hrep.
    + destruct (bundleOf_entries entry rules (i w) Hrules Hrep) as (es & -> & Hes).
      destruct (validateBundle_returns es (drop (cursorOf w) txs) Hes) as [n ->].
      by destruct n.
    + destruct (txs !! cursorOf w); [|done]. by destruct (negb _).
  - destruct (txs !! cursorOf w); [|done]. by destruct (negb _).
Qed.

Lemma walkLoop_returns (txs : list Transaction) (fuel : nat) (w : Walk) :
  size (sequence t) <= fuel + i w ->
  exists b, walkLoop fuel t txs (size (sequence t)) w = Return b.
Proof.
  revert w. induction fuel as [|fuel IH]; intros w Hfuel; cbn [walkLoop].
  - assert ((size (sequence t) <=? i w) = true) as -> by (apply Nat.leb_le; lia).
    eauto.
  - destruct (size (sequence t) <=? i w) eqn:Hle; [eauto|].
    apply Nat.leb_gt in Hle.
    destruct (walkBody t txs w) as [w'|b|f] eqn:Hbody.
    + apply walkBody_advances in Hbody. apply IH. lia.
    + eauto.
    + by apply walkBody_never_raises in Hbody.
Qed.

End NeverThrows.

(** X26. [validate] returns a boolean, and throws nothing, on every
    candidate when the grammar has an entry at each of the positions
    0, 1, ..., size - 1 and the positions a repeatable rule bundles
    with its entry lie inside the sequence. *)
Theorem validate_never_throws (t : Taxonomy) (c : AggregateTransaction) :
  (forall k, k < size (sequence t) -> is_Some (sequence t !! k)) ->
  (forall k r b,
     semantics t !! k = Some r -> repeatable r = true ->
     1 <= b < length (bundleWith r) -> is_Some (sequence t !! (k + b))) ->
  exists b, validate t c = Return b.
Proof.
  intros Hseq Hbundles. unfold validate.
  destruct (length (innerTransactions c) =? 0); [eauto|].
  destruct (length (registeredTypes t) =? 0); [eauto|].
  destruct (negb _); [eauto|].
  apply walkLoop_returns; [done|done|]. cbn [i walkStart]. lia.
Qed.

Lemma validate_never_throws_witness :
  exists b, validate organizationGrammar
              (contractOf (typed <$> [MULTISIG_ACCOUNT_MODIFICATION; TRANSFER]))
            = Return b.
Proof.
  apply (validate_never_throws organizationGrammar
           (contractOf (typed <$> [MULTISIG_ACCOUNT_MODIFICATION; TRANSFER]))).
  - assert (size (sequence organizationGrammar) = 17) as ->
      by (vm_compute; reflexivity).
    intros k Hk.
    do 17 (destruct k as [|k]; [by eexists|]). lia.
  - intros k r b Hr Hrep Hb.
    destruct (decide (k = 14)) as [->|Hne].
    + vm_compute in Hr. injection Hr as <-. cbn in Hb. lia.
    + exfalso. unfold organizationGrammar in Hr.
      cbn [semantics newTaxonomy newMap foldl fst snd] in Hr.
      rewrite lookup_insert_ne in Hr by done. by rewrite lookup_empty in Hr.
Defined.

(** ** The contracts the orchestrator instantiates *)

Section ContractLookup.
Import Contracts.

(** X27. A contract instance comes out of [getContract] for the five
    names of [DigitalContracts] only. It is a new instance of the class
    registered under the command, built around the context and the
    identifier passed: its target is the target of the identifier and
    it holds no agreement, operators, mosaic information or metadata
    yet. For the classes at hand its [name] getter returns the command
    it was looked up by. *)
Theorem getContract_instance (governAssetId : AssetIdentifier) (command : string)
    (context : Context) (e : Executable) :
  Governable.getContract governAssetId command context = Return (Governable.Instance e) ->
  (command, kind e) ∈ Governable.DigitalContracts /\
  e = newExecutable (kind e) context governAssetId /\
  target e = target_ governAssetId /\
  agreement e = None /\ operators e = [] /\ mosaicInfo e = None /\ metadata e = None /\
  (kind e <> Vote -> contractName e = Some command).
Proof.
  unfold Governable.getContract, Governable.lookupContract, Governable.assoc.
  unfold Governable.DigitalContracts at 1. cbn [List.find fst].
  destruct (String.eqb "CreateAgreement" command) eqn:H1.
  { apply String.eqb_eq in H1 as <-. intros [= <-].
    repeat split. unfold Governable.DigitalContracts. set_solver. }
  destruct (String.eqb "CommitAgreement" command) eqn:H2.
  { apply String.eqb_eq in H2 as <-. intros [= <-].
    repeat split. unfold Governable.DigitalContracts. set_solver. }
  destruct (String.eqb "CreateDAO" command) eqn:H3.
  { apply String.eqb_eq in H3 as <-. intros [= <-].
    repeat split. unfold Governable.DigitalContracts. set_solver. }
  destruct (String.eqb "CreateVote" command) eqn:H4.
  { apply String.eqb_eq in H4 as <-. intros [= <-].
    repeat split. unfold Governable.DigitalContracts. set_solver. }
  destruct (String.eqb "Vote" command) eqn:H5.
  { apply String.eqb_eq in H5 as <-. intros [= <-].
    repeat split; [unfold Governable.DigitalContracts; set_solver|done]. }
  cbn [fmap option_fmap option_map].
  destruct (find _ Governable.ObjectPrototype) as [[nm [|]]|]; discriminate.
Qed.

Lemma getContract_instance_witness :
  let e := instanceOf sampleOrganization CommitAgreement commitArgv in
  ("CommitAgreement"%string, kind e) ∈ Governable.DigitalContracts /\
  e = newExecutable (kind e)
        (Governable.getContext sampleOrganization sampleOperator defaultParameters
           (Some commitArgv))
        sampleIdentifier /\
  target e = target_ sampleIdentifier /\
  agreement e = None /\ operators e = [] /\ mosaicInfo e = None /\ metadata e = None /\
  (kind e <> Vote -> contractName e = Some "CommitAgreement"%string).
Proof.
  apply (getContract_instance sampleIdentifier "CommitAgreement"
           (Governable.getContext sampleOrganization sampleOperator defaultParameters
              (Some commitArgv))
           (instanceOf sampleOrganization CommitAgreement commitArgv)).
  reflexivity.
Defined.

End ContractLookup.

(** ** A contract that cannot be executed *)

Section EmptyContract.
Import Contracts.
Context (ext : External).

Lemma executeOffline_CreateVote (org : Governable.DistributedOrganization)
    (actor : PublicAccount) (governAssetId : AssetIdentifier)
    (parameters : TransactionParameters) (argv : list ContractOption) :
  Governable.executeOffline ext org actor governAssetId "CreateVote" parameters argv
  = match getInput (Governable.getContext org actor parameters (Some argv))
            "operator" VNull with
    | VNull => Throw (FailureMissingArgument "operator")
    | _ => Throw FailureEmptyContract
    end.
Proof.
  unfold Governable.executeOffline.
  change (Governable.getContract governAssetId "CreateVote"
            (Governable.getContext org actor parameters (Some argv)))
    with (Return (Governable.Instance
                    (newExecutable CreateVote
                       (Governable.getContext org actor parameters (Some argv))
                       governAssetId))).
  cbn [bind]. unfold execute, assertExecutionAllowance, canExecute, prepare, transactions.
  cbn [kind Governable.populate newExecutable context].
  unfold CreateVote_canExecute, CreateVote_arguments.
  cbn [assertHasMandatoryArguments context].
  by destruct (getInput _ "operator" VNull).
Qed.

(** X28. [CreateVote] can be authorized and still never be executed:
    its [transactions] getter builds an empty list, so that the
    orchestrator ends in [FailureMissingArgument] when the operator
    input is missing and in [FailureEmptyContract] otherwise, for every
    organization, actor and input, offline and after a
    synchronization. No transaction URI is ever produced. *)
Theorem CreateVote_never_executes (net : Governable.Network)
    (org : Governable.DistributedOrganization)
    (actor : PublicAccount) (governAssetId : AssetIdentifier)
    (parameters : TransactionParameters) (argv : list ContractOption) :
  Governable.executeOffline ext org actor governAssetId "CreateVote" parameters argv
  = match getInput (Governable.getContext org actor parameters (Some argv))
            "operator" VNull with
    | VNull => Throw (FailureMissingArgument "operator")
    | _ => Throw FailureEmptyContract
    end /\
  forall uri,
    (Governable.execute ext net org actor governAssetId "CreateVote" parameters argv).2
    <> Return uri.
Proof.
  split; [apply executeOffline_CreateVote|].
  intros uri. unfold Governable.execute.
  destruct (Governable.synchronize net org) as [org' [b|f]]; cbn [snd]; [|done].
  fold (Governable.executeOffline ext org' actor governAssetId "CreateVote"
          parameters argv).
  rewrite executeOffline_CreateVote.
  by destruct (getInput _ "operator" VNull).
Qed.

End EmptyContract.
